(** * RTL433_WeatherStation: the ingestion loop of the Pi weather station

    A shallow embedding of [RTL433_WeatherStation.py].  The script reads the
    JSON lines that [rtl_433] prints, accumulates humidity, temperature and
    wind readings, filters temperature spikes with [streamRoll], and displays
    and uploads the aggregated values.

    Numbers.  Every reading is a NumPy [float64] (a JSON integer becomes an
    [int64] that NumPy converts, exactly below 2^53, before it computes with
    it); they are modelled by Rocq's primitive binary64 floats, whose
    operations are the IEEE 754 ones Python and NumPy use, so a computation
    below rounds as the script does.  Python's unbounded integers ([pulse],
    [upload_timer]) are [Z].

    Exceptions.  A Python call that can raise returns a [result]; an
    exception that no handler of the script catches ends the loop. *)

From Stdlib Require Import String List ZArith Lia Bool.
From Stdlib Require Import PrimInt63 Uint63 PrimFloat Floats.
Import ListNotations.

Set Warnings "-inexact-float".
Local Open Scope float_scope.

(** ** Python values, exceptions and results *)

Inductive exn : Type :=
| ValueError      (* pd.read_json on a line that is not JSON; np.max of [] *)
| KeyError        (* set_index("time") / drop(["id","model"]) on a missing column *)
| IndexError.     (* x[-1] on an empty sequence *)

Inductive result (A : Type) : Type :=
| Ok (a : A)
| Raise (e : exn).

Arguments Ok {A} a.
Arguments Raise {A} e.

Definition bind {A B : Type} (m : result A) (k : A -> result B) : result B :=
  match m with
  | Ok a => k a
  | Raise e => Raise e
  end.

Notation "x <- m ;; k" := (bind m (fun x => k))
  (at level 61, m at next level, right associativity).
Notation "' pat <- m ;; k" := (bind m (fun x => match x with pat => k end))
  (at level 61, pat pattern, m at next level, right associativity).

(** What a Python expression of the script can evaluate to where it is
    passed to [str]: a float, a string, or [None]. *)
Inductive pyval : Type :=
| PyNone
| PyFloat (x : float)
| PyStr (s : string).

(** ** NumPy reductions on a sequence of readings *)

(** [len(l)] as the float a true division converts it to. *)
Definition float_of_nat (n : nat) : float :=
  PrimFloat.of_uint63 (Uint63.of_Z (Z.of_nat n)).

(** [np.sum]: a sequence shorter than eight elements is added up by a plain
    loop, left to right from zero (the sign of a zero sum apart).  NumPy sums
    a longer sequence in blocks; that order is not modelled, and no property
    below depends on the digits of the mean of a long buffer: the
    temperature history, the one sequence whose mean decides anything, never
    holds more than five readings. *)
Definition np_sum (l : list float) : float := fold_left PrimFloat.add l 0.

(** [np.mean]: the sum divided by the number of elements; [nan] (with a
    warning, no exception) on an empty sequence. *)
Definition np_mean (l : list float) : float :=
  np_sum l / float_of_nat (length l).

(** [np.maximum], which propagates [nan]. *)
Definition np_maximum (a b : float) : float :=
  if PrimFloat.is_nan a then a
  else if PrimFloat.is_nan b then b
  else if PrimFloat.ltb a b then b else a.

(** [np.max]: raises [ValueError] on an empty sequence. *)
Definition np_max (l : list float) : result float :=
  match l with
  | [] => Raise ValueError
  | x :: xs => Ok (fold_left np_maximum xs x)
  end.

Fixpoint insert_sorted (x : float) (l : list float) : list float :=
  match l with
  | [] => [x]
  | y :: ys => if PrimFloat.leb x y then x :: l else y :: insert_sorted x ys
  end.

Definition sort_floats (l : list float) : list float :=
  fold_right insert_sorted [] l.

(** [np.median]: [nan] when the sequence is empty or holds a [nan]; else the
    middle element of the sorted sequence, or the mean of the two middle
    ones. *)
Definition np_median (l : list float) : float :=
  if existsb PrimFloat.is_nan l then PrimFloat.nan
  else
    let srt := sort_floats l in
    let n := length l in
    if Nat.eqb n 0 then PrimFloat.nan
    else if Nat.odd n then nth (n / 2) srt PrimFloat.nan
    else np_mean [nth (n / 2 - 1) srt PrimFloat.nan; nth (n / 2) srt PrimFloat.nan].

(** [l[-1]]. *)
Definition index_last (l : list float) : result float :=
  match l with
  | [] => Raise IndexError
  | _ :: _ => Ok (last l 0)
  end.

(** [l[-3:]]. *)
Definition last3 (l : list float) : list float := skipn (length l - 3) l.

(** ** Helper functions of the script *)

(** Climate calculations. *)
Definition rht_to_dp (temp rh : float) : float := temp - (0.36 * (100 - rh)).

Definition degc_to_degf (input_temp : float) : float := (input_temp * 1.8) + 32.

Definition ms_to_mph (input_speed : float) : float := input_speed * 2.237.

Definition pa_to_inches (pressure_in_pa : float) : float := pressure_in_pa * 0.02953.

Definition mm_to_inches (rainfall_in_mm : float) : float := rainfall_in_mm * 0.0393701.

Definition khm_to_mph (speed_in_kph : float) : float := speed_in_kph * 0.621371.

(** [streamRoll]: the rolling estimate of the temperature history. *)
Definition streamRoll (daList : list float) : result float :=
  if (length daList <? 3)%nat then
    let m := np_mean daList in
    x <- index_last daList ;;
    Ok (m + (x - m) / float_of_nat (length daList))
  else
    let m := np_mean (last3 daList) in
    x <- index_last daList ;;
    Ok (m + (x - m) / float_of_nat (length (last3 daList))).

(** Value correcting functions. *)
Definition temp_correct (temp : float) : float := temp + 10.001.

Definition ws_correct (ws : float) : float := ws * (1 / 0.868976).

(** The value of the local [new_wd] when the body of [wd_correct] ends. *)
Definition wd_correct_new_wd (wd : float) : float :=
  let new_wd := wd - 90.0 in
  let new_wd := if PrimFloat.ltb new_wd 0 then new_wd + 360.0 else new_wd in
  let new_wd := if PrimFloat.leb 360 new_wd then new_wd - 360.0 else new_wd in
  new_wd.

(** [wd_correct]: the body computes [new_wd] and ends without a [return]
    statement, so the call evaluates to [None]. *)
Definition wd_correct (wd : float) : pyval :=
  let new_wd := wd_correct_new_wd wd in
  PyNone.

(** ** Constants of the script *)

Definition UPLOAD_INTERVAL : Z := 1 * 60.
Definition WEATHER_UPLOAD : bool := true.
Definition WU_URL : string :=
  "http://weatherstation.wunderground.com/weatherstation/updateweatherstation.php".
Definition pulse_timeout : Z := 400000.

(** ** The state of the main loop

    The module-level variables the [while True] loop reads and writes.  A
    buffer is a Python list to which one-element arrays are appended; each
    array is kept as its single value.  [tempC] is either the empty list
    [clearVars] returns or the array of the latest temperature record, and
    [roll] either the initial empty list or the latest estimate. *)

Record LoopState : Type := mkLoopState {
  have_hum : bool;
  have_temp : bool;
  have_wd : bool;
  have_ws : bool;
  pulse : Z;
  upload_timer : Z;
  hum : list float;
  tempC : list float;
  windDir : list float;
  windSpeed : list float;
  roll : list float;
  tempTrack : list float
}.

Definition set_have_hum (s : LoopState) (v : bool) : LoopState :=
  mkLoopState v (have_temp s) (have_wd s) (have_ws s) (pulse s) (upload_timer s)
    (hum s) (tempC s) (windDir s) (windSpeed s) (roll s) (tempTrack s).

Definition set_have_temp (s : LoopState) (v : bool) : LoopState :=
  mkLoopState (have_hum s) v (have_wd s) (have_ws s) (pulse s) (upload_timer s)
    (hum s) (tempC s) (windDir s) (windSpeed s) (roll s) (tempTrack s).

Definition set_have_wd (s : LoopState) (v : bool) : LoopState :=
  mkLoopState (have_hum s) (have_temp s) v (have_ws s) (pulse s) (upload_timer s)
    (hum s) (tempC s) (windDir s) (windSpeed s) (roll s) (tempTrack s).

Definition set_have_ws (s : LoopState) (v : bool) : LoopState :=
  mkLoopState (have_hum s) (have_temp s) (have_wd s) v (pulse s) (upload_timer s)
    (hum s) (tempC s) (windDir s) (windSpeed s) (roll s) (tempTrack s).

Definition set_pulse (s : LoopState) (v : Z) : LoopState :=
  mkLoopState (have_hum s) (have_temp s) (have_wd s) (have_ws s) v (upload_timer s)
    (hum s) (tempC s) (windDir s) (windSpeed s) (roll s) (tempTrack s).

Definition set_upload_timer (s : LoopState) (v : Z) : LoopState :=
  mkLoopState (have_hum s) (have_temp s) (have_wd s) (have_ws s) (pulse s) v
    (hum s) (tempC s) (windDir s) (windSpeed s) (roll s) (tempTrack s).

Definition set_hum (s : LoopState) (v : list float) : LoopState :=
  mkLoopState (have_hum s) (have_temp s) (have_wd s) (have_ws s) (pulse s) (upload_timer s)
    v (tempC s) (windDir s) (windSpeed s) (roll s) (tempTrack s).

Definition set_tempC (s : LoopState) (v : list float) : LoopState :=
  mkLoopState (have_hum s) (have_temp s) (have_wd s) (have_ws s) (pulse s) (upload_timer s)
    (hum s) v (windDir s) (windSpeed s) (roll s) (tempTrack s).

Definition set_windDir (s : LoopState) (v : list float) : LoopState :=
  mkLoopState (have_hum s) (have_temp s) (have_wd s) (have_ws s) (pulse s) (upload_timer s)
    (hum s) (tempC s) v (windSpeed s) (roll s) (tempTrack s).

Definition set_windSpeed (s : LoopState) (v : list float) : LoopState :=
  mkLoopState (have_hum s) (have_temp s) (have_wd s) (have_ws s) (pulse s) (upload_timer s)
    (hum s) (tempC s) (windDir s) v (roll s) (tempTrack s).

Definition set_roll (s : LoopState) (v : list float) : LoopState :=
  mkLoopState (have_hum s) (have_temp s) (have_wd s) (have_ws s) (pulse s) (upload_timer s)
    (hum s) (tempC s) (windDir s) (windSpeed s) v (tempTrack s).

Definition set_tempTrack (s : LoopState) (v : list float) : LoopState :=
  mkLoopState (have_hum s) (have_temp s) (have_wd s) (have_ws s) (pulse s) (upload_timer s)
    (hum s) (tempC s) (windDir s) (windSpeed s) (roll s) v.

(** The values the variables have when the loop is entered. *)
Definition init : LoopState :=
  mkLoopState false false false false 0 0 [] [] [] [] [] [].

(** ** What the loop receives *)

(** The data frame of one line after [set_index("time")] and
    [drop(["id", "model"])]: the columns the loop looks for, each present or
    not.  A line holds one JSON object, so a column holds one value.  The
    value is a number: a line whose JSON gives a telemetry column a value of
    another kind (a string, say) has no counterpart in this type. *)
Record RawRecord : Type := mkRawRecord {
  humidity : option float;
  wind_direction : option float;
  wind_speed_ms : option float;
  temperature_C : option float
}.

(** A line of the queue, by what decoding it gives: [pd.read_json] raises
    [ValueError] on text that is not JSON, [set_index] and [drop] raise
    [KeyError] when [time], [id] or [model] is missing; otherwise the line is
    a telemetry record. *)
Inductive line : Type :=
| NotTelemetry (e : exn)
| Telemetry (df : RawRecord).

(** [pd.read_json(reading, lines=True).set_index("time").drop(...)]. *)
Definition read_json (l : line) : result RawRecord :=
  match l with
  | NotTelemetry e => Raise e
  | Telemetry df => Ok df
  end.

(** The outcome of [q.get(timeout=1)]. *)
Inductive event : Type :=
| Empty                 (* the queue stayed empty for the timeout *)
| GotLine (l : line).

(** What the network does if [urlopen] is called: the request and the
    reading of the response succeed, or one of them raises. *)
Inductive net_outcome : Type :=
| Responds (html : string)
| NetFails.

(** ** What the loop does to the outside *)

(** The numbers [display_data] prints, before they are formatted. *)
Record display : Type := mkDisplay {
  d_temperature : float;
  d_humidity : float;
  d_wind_mean : float;
  d_wind_max : float;
  d_wind_direction : float
}.

Inductive effect : Type :=
| PrintPulse (p : Z)
| PrintRoll (r : float)
| PrintTempTrack (t : list float)
| PrintDisplay (d : display)
| PrintRebooting
| PrintUploading
| UrlOpen (url : string) (weather_data : list (string * pyval))
| PrintServerResponse (html : string)
| PrintException
| PrintSkipping.

(** ** Main functions *)

Definition clearVars : list float * list float * list float * list float * Z :=
  let a1 := [] in
  let a2 := [] in
  let a3 := [] in
  let a4 := [] in
  let a5 := 0%Z in
  (a1, a2, a3, a4, a5).

(** [display_data]: the temperature line uses the mean of the temperature
    buffer, corrected and converted; [np.max] raises on an empty buffer. *)
Definition display_data (h c wd ws : list float) : result display :=
  let temperature := degc_to_degf (temp_correct (np_mean c)) in
  let rh := np_mean h in
  let wind_mean := ws_correct (ms_to_mph (np_mean ws)) in
  ws_max <- np_max ws ;;
  let wind_max := ws_correct (ms_to_mph ws_max) in
  wd_max <- np_max wd ;;
  wd_max' <- np_max [wd_max] ;;
  Ok (mkDisplay temperature rh wind_mean wind_max wd_max').

(** The dictionary [upload_weather] builds.  Each value is the argument of
    [str]. *)
Definition weather_data (wu_station_id wu_station_key : string)
    (tempC humidity windDir windSpeed : list float)
    : result (list (string * pyval)) :=
  let tempf := degc_to_degf (temp_correct (np_mean tempC)) in
  let dewPtF :=
    rht_to_dp (degc_to_degf (temp_correct (np_mean tempC))) (np_mean humidity) in
  let winddir_avg2m := wd_correct (np_mean windDir) in
  let windspdmph_avg2m := ws_correct (ms_to_mph (np_mean windSpeed)) in
  let windspeedmph := ws_correct (ms_to_mph (np_median windSpeed)) in
  wd_max <- np_max windDir ;;
  let winddir := wd_correct wd_max in
  ws_max <- np_max windSpeed ;;
  let windgustmph := ws_correct (ms_to_mph ws_max) in
  wd_max' <- np_max windDir ;;
  let windgustdir := wd_correct wd_max' in
  Ok [ ("action", PyStr "updateraw");
       ("ID", PyStr wu_station_id);
       ("PASSWORD", PyStr wu_station_key);
       ("dateutc", PyStr "now");
       ("tempf", PyFloat tempf);
       ("dewPtF", PyFloat dewPtF);
       ("humidity", PyFloat (np_mean humidity));
       ("winddir_avg2m", winddir_avg2m);
       ("windspdmph_avg2m", PyFloat windspdmph_avg2m);
       ("windspeedmph", PyFloat windspeedmph);
       ("winddir", winddir);
       ("windgustmph", PyFloat windgustmph);
       ("windgustdir", windgustdir) ]%string.

(** [upload_weather]: the request is made inside [try], and the bare
    [except] prints whatever it raises. *)
Definition upload_weather (net : net_outcome) (wu_station_id wu_station_key : string)
    (tempC humidity windDir windSpeed : list float)
    : result (list effect) :=
  wdata <- weather_data wu_station_id wu_station_key tempC humidity windDir windSpeed ;;
  Ok ([PrintUploading; UrlOpen WU_URL wdata] ++
      match net with
      | Responds html => [PrintServerResponse html]
      | NetFails => [PrintException]
      end).

(** ** The main loop *)

(** The four-fold test that guards the display and upload block. *)
Definition isComplete (s : LoopState) : bool :=
  have_hum s && have_temp s && have_wd s && have_ws s.

(** [tempTrack.append(...)] followed by the trimming of the history. *)
Definition push_tempTrack (track : list float) (v : float) : list float :=
  let track := track ++ [v] in
  let rollingAveNum := 5%nat in
  if (rollingAveNum <? length track)%nat
  then skipn (length track - (rollingAveNum - 1)) track
  else track.

(** The temperature branch of the loop body. *)
Definition ingest_temperature (s : LoopState) (v : float)
    : result (LoopState * list effect) :=
  let s := set_tempC s [v] in
  let s := set_tempTrack s (push_tempTrack (tempTrack s) v) in
  r <- streamRoll (tempTrack s) ;;
  let s := set_roll s [r] in
  x <- index_last (tempTrack s) ;;
  let s := if PrimFloat.ltb 5 (PrimFloat.abs (x - r)) then set_have_temp s false
           else set_have_temp s true in
  Ok (s, [PrintRoll r; PrintTempTrack (tempTrack s)]).

(** The four [if "..." in df.columns] blocks of the loop body. *)
Definition ingest (s : LoopState) (df : RawRecord) : result (LoopState * list effect) :=
  let s := match humidity df with
           | Some v => set_have_hum (set_hum s (hum s ++ [v])) true
           | None => s
           end in
  let s := match wind_direction df with
           | Some v => set_have_wd (set_windDir s (windDir s ++ [v])) true
           | None => s
           end in
  let s := match wind_speed_ms df with
           | Some v => set_have_ws (set_windSpeed s (windSpeed s ++ [v])) true
           | None => s
           end in
  match temperature_C df with
  | Some v => ingest_temperature s v
  | None => Ok (s, [])
  end.

(** [hum, tempC, windDir, windSpeed, pulse = clearVars()]. *)
Definition assign_clearVars (s : LoopState) : LoopState :=
  let '(a1, a2, a3, a4, a5) := clearVars in
  set_pulse (set_windSpeed (set_windDir (set_tempC (set_hum s a1) a2) a3) a4) a5.

(** "Reset the data trackers". *)
Definition reset_trackers (s : LoopState) : LoopState :=
  set_have_ws (set_have_wd (set_have_temp (set_have_hum s false) false) false) false.

(** The flush: the statements that end an upload cycle, from
    [upload_timer = 0] to the reset of the trackers. *)
Definition flush (s : LoopState) : LoopState :=
  reset_trackers (assign_clearVars (set_upload_timer s 0)).

(** The [try: q.get(timeout=1) ... except Empty ... else ...] statement: a
    line is decoded only while [pulse] is positive. *)
Definition receive (s : LoopState) (ev : event) : result (LoopState * list effect) :=
  match ev with
  | Empty =>
      let s := set_pulse s (pulse s + 1) in
      Ok (s, [PrintPulse (pulse s)])
  | GotLine l =>
      let s := set_pulse s (pulse s - 1) in
      if (0 <? pulse s)%Z then
        df <- read_json l ;;
        ingest s df
      else Ok (s, [])
  end.

Section Loop.

(** [STATION_ID] and [STATION_KEY] are imported from a module that is not
    part of the repository. *)
Variables wu_station_id wu_station_key : string.

(** The block the completeness test guards.  The loop passes the scalar
    [tempC[-1]] to [upload_weather], where [np.mean] takes it as an array of
    one element. *)
Definition deliver (net : net_outcome) (s : LoopState)
    : result (LoopState * list effect) :=
  d <- display_data (hum s) (tempC s) (windDir s) (windSpeed s) ;;
  let out_silent :=
    if (pulse_timeout <? pulse s)%Z then [PrintRebooting] else [] in
  '(s, out_upload) <-
    (if (UPLOAD_INTERVAL <? upload_timer s)%Z then
       out <- (if WEATHER_UPLOAD then
                 t <- index_last (tempC s) ;;
                 upload_weather net wu_station_id wu_station_key
                   [t] (hum s) (windDir s) (windSpeed s)
               else Ok [PrintSkipping]) ;;
       let s := set_upload_timer s 0 in
       let s := assign_clearVars s in
       Ok (s, out)
     else Ok (s, [])) ;;
  Ok (reset_trackers s, [PrintDisplay d] ++ out_silent ++ out_upload).

(** One iteration of [while True]. *)
Definition loop_body (net : net_outcome) (s : LoopState) (ev : event)
    : result (LoopState * list effect) :=
  let s := set_upload_timer s (upload_timer s + 1) in
  '(s, out) <- receive s ev ;;
  if isComplete s then
    '(s, out') <- deliver net s ;;
    Ok (s, out ++ out')
  else Ok (s, out).

(** The loop over a finite prefix of what the queue and the network do. *)
Fixpoint run (s : LoopState) (evs : list (event * net_outcome))
    : result (LoopState * list effect) :=
  match evs with
  | [] => Ok (s, [])
  | (ev, net) :: evs =>
      '(s, out) <- loop_body net s ev ;;
      '(s, out') <- run s evs ;;
      Ok (s, out ++ out')
  end.

End Loop.

(** The records of a cycle, taken in one after the other. *)
Fixpoint ingest_all (s : LoopState) (dfs : list RawRecord) : result LoopState :=
  match dfs with
  | [] => Ok s
  | df :: dfs => '(s, _) <- ingest s df ;; ingest_all s dfs
  end.

(** ** Notions the properties are stated with *)

(** The state when an iteration has counted itself: [upload_timer += 1]. *)
Definition tick (s : LoopState) : LoopState :=
  set_upload_timer s (upload_timer s + 1).

(** Every tracker is down, as when the loop starts and after each reset. *)
Definition trackers_down (s : LoopState) : Prop :=
  have_hum s = false /\ have_temp s = false /\ have_wd s = false /\ have_ws s = false.

(** The four buffers are empty. *)
Definition buffers_empty (s : LoopState) : Prop :=
  hum s = [] /\ tempC s = [] /\ windDir s = [] /\ windSpeed s = [].

(** Two states agree on the accumulator: the buffers, the trackers and the
    temperature history with its estimate. *)
Definition same_accumulator (s s' : LoopState) : Prop :=
  hum s' = hum s /\ tempC s' = tempC s /\ windDir s' = windDir s /\
  windSpeed s' = windSpeed s /\
  have_hum s' = have_hum s /\ have_temp s' = have_temp s /\
  have_wd s' = have_wd s /\ have_ws s' = have_ws s /\
  tempTrack s' = tempTrack s /\ roll s' = roll s.

(** A tracker that is up has a value in its buffer. *)
Definition buffers_filled (s : LoopState) : Prop :=
  (have_hum s = true -> hum s <> []) /\
  (have_temp s = true -> exists v, tempC s = [v]) /\
  (have_wd s = true -> windDir s <> []) /\
  (have_ws s = true -> windSpeed s <> []).

(** What holds of the state between two iterations: the buffers of the
    trackers that are up are filled, and the four are never up together. *)
Definition wf (s : LoopState) : Prop :=
  buffers_filled s /\ isComplete s = false.

(** The smoother as the design document words it: the estimate is taken
    over the whole history when it has fewer than three entries and over its
    last three otherwise, as the mean plus the latest entry's distance to
    the mean divided by the number of entries. *)
Definition smoother_estimate (history : list float) : result float :=
  let window := if (length history <? 3)%nat then history else last3 history in
  latest <- index_last window ;;
  Ok (np_mean window + (latest - np_mean window) / float_of_nat (length window)).

(** The temperature readings of a sequence of records, in order. *)
Definition temperatures (dfs : list RawRecord) : list float :=
  flat_map (fun df => match temperature_C df with Some v => [v] | None => [] end) dfs.

(** The history after the readings [vs] were pushed on [track]. *)
Definition history (track : list float) (vs : list float) : list float :=
  fold_left push_tempTrack vs track.

(** The reading [v], arriving when the history is [track], is within 5 of
    the estimate taken once it is pushed. *)
Definition accepted (track : list float) (v : float) : bool :=
  match streamRoll (push_tempTrack track v) with
  | Ok r => negb (PrimFloat.ltb 5 (PrimFloat.abs (v - r)))
  | Raise _ => false
  end.

(** Some record of [dfs] has the column. *)
Definition observed (column : RawRecord -> option float) (dfs : list RawRecord) : bool :=
  existsb (fun df => match column df with Some _ => true | None => false end) dfs.

(** Some reading of [vs] was accepted when it arrived. *)
Fixpoint some_accepted (track : list float) (vs : list float) : bool :=
  match vs with
  | [] => false
  | v :: vs' => accepted track v || some_accepted (push_tempTrack track v) vs'
  end.

(** The last reading of [vs] was accepted when it arrived. *)
Fixpoint latest_accepted (track : list float) (vs : list float) : bool :=
  match vs with
  | [] => false
  | v :: vs' =>
      match vs' with
      | [] => accepted track v
      | _ :: _ => latest_accepted (push_tempTrack track v) vs'
      end
  end.

(** The columns of a record, taken in before the temperature. *)
Definition ingest_columns (s : LoopState) (df : RawRecord) : LoopState :=
  let s := match humidity df with
           | Some v => set_have_hum (set_hum s (hum s ++ [v])) true
           | None => s
           end in
  let s := match wind_direction df with
           | Some v => set_have_wd (set_windDir s (windDir s ++ [v])) true
           | None => s
           end in
  match wind_speed_ms df with
  | Some v => set_have_ws (set_windSpeed s (windSpeed s ++ [v])) true
  | None => s
  end.

(** [d.get(k)] on a dictionary kept as its list of items. *)
Fixpoint dict_get (k : string) (d : list (string * pyval)) : option pyval :=
  match d with
  | [] => None
  | (k', v) :: d' => if String.eqb k k' then Some v else dict_get k d'
  end.

(** An effect is a request to the upload endpoint. *)
Definition is_UrlOpen (e : effect) : bool :=
  match e with
  | UrlOpen _ _ => true
  | _ => false
  end.

(** ** Concrete inputs *)

Definition only_humidity (v : float) : RawRecord := mkRawRecord (Some v) None None None.
Definition only_wind_direction (v : float) : RawRecord := mkRawRecord None (Some v) None None.
Definition only_wind_speed (v : float) : RawRecord := mkRawRecord None None (Some v) None.
Definition only_temperature (v : float) : RawRecord := mkRawRecord None None None (Some v).

(** The state in which the history is [10, 10, 10] and the temperature
    tracker is down. *)
Definition three_tens : LoopState := set_tempTrack init [10; 10; 10].

(** A cycle in which a temperature of 10 is followed by a spike of 40 before
    the wind records arrive. *)
Definition cycle_with_spike : list RawRecord :=
  [ only_humidity 50; only_temperature 10; only_temperature 40;
    only_wind_direction 90; only_wind_speed 3 ].

(** The state the loop is in after eight silent seconds and then a
    humidity, a temperature and a wind direction record: the wind speed is
    the one channel still missing. *)
Definition awaiting_wind_speed : LoopState :=
  mkLoopState true true true false 5 11 [50] [10] [45] [] [10] [10].

(** The same cycle met when more than [UPLOAD_INTERVAL] iterations have gone
    by since the last upload. *)
Definition awaiting_wind_speed_late : LoopState :=
  mkLoopState true true true false 5 70 [50] [10] [45] [] [10] [10].

(** A state in which the four trackers are up, the buffers hold a cycle and
    71 iterations were counted since the last upload. *)
Definition complete_late : LoopState :=
  mkLoopState true true true true 4 71 [50] [10] [45] [3] [10] [10; 10; 12].

(** ** The smoothing helper [get_smooth]

    [get_smooth] keeps its last three arguments in the function attribute
    [get_smooth.t], a list of three elements that does not exist before the
    first call ([None] here) and is created as [[x, x, x]]. *)

Definition get_smooth (t : option (float * float * float)) (x : float)
    : option (float * float * float) * float :=
  let '(t0, t1, t2) := match t with
                       | None => (x, x, x)
                       | Some t => t
                       end in
  let t2 := t1 in
  let t1 := t0 in
  let t0 := x in
  let xs := (t0 + t1 + t2) / 3 in
  (Some (t0, t1, t2), xs).

(** Successive calls of [get_smooth]: the attribute after the last call and
    the values returned, in order. *)
Fixpoint get_smooth_calls (t : option (float * float * float)) (xs : list float)
    : option (float * float * float) * list float :=
  match xs with
  | [] => (t, [])
  | x :: xs' =>
      let '(t', r) := get_smooth t x in
      let '(t'', rs) := get_smooth_calls t' xs' in
      (t'', r :: rs)
  end.

(** ** Channels, and what an iteration reports *)

Inductive channel : Type :=
| Humidity
| Temperature
| WindDirection
| WindSpeed.

(** The column of a channel in a record. *)
Definition column (c : channel) : RawRecord -> option float :=
  match c with
  | Humidity => humidity
  | Temperature => temperature_C
  | WindDirection => wind_direction
  | WindSpeed => wind_speed_ms
  end.

(** The tracker of a channel. *)
Definition tracker (c : channel) : LoopState -> bool :=
  match c with
  | Humidity => have_hum
  | Temperature => have_temp
  | WindDirection => have_wd
  | WindSpeed => have_ws
  end.

(** The event is a line whose record has the column of the channel. *)
Definition carries (c : channel) (ev : event) : bool :=
  match ev with
  | GotLine (Telemetry df) =>
      match column c df with
      | Some _ => true
      | None => false
      end
  | _ => false
  end.

(** The effect belongs to the block the completeness test guards. *)
Definition is_report (e : effect) : bool :=
  match e with
  | PrintDisplay _ | PrintRebooting | PrintUploading | UrlOpen _ _
  | PrintServerResponse _ | PrintException | PrintSkipping => true
  | PrintPulse _ | PrintRoll _ | PrintTempTrack _ => false
  end.

Definition is_line (ev : event) : bool :=
  match ev with
  | GotLine _ => true
  | Empty => false
  end.

Definition is_timeout (ev : event) : bool :=
  match ev with
  | Empty => true
  | GotLine _ => false
  end.

(** The values of a column in a sequence of records, in order. *)
Definition column_values (col : RawRecord -> option float) (dfs : list RawRecord)
    : list float :=
  flat_map (fun df => match col df with Some v => [v] | None => [] end) dfs.

(** The last two entries of a history. *)
Definition last2 (l : list float) : list float := skipn (length l - 2) l.

(** ** The order of the floats

    The comparisons of binary64, read on the specification of the floats,
    are those of a rank: the sign class first, then the exponent and the
    mantissa, both turned round for a negative number. *)

Definition SF_rank (f : spec_float) : Z * Z * Z :=
  match f with
  | S754_zero _ => (0, 0, 0)
  | S754_infinity s => (if s then -2 else 2, 0, 0)
  | S754_nan => (0, 0, 0)
  | S754_finite s m e => if s then (-1, - e, - Z.pos m) else (1, e, Z.pos m)
  end%Z.

Definition rank_le (r1 r2 : Z * Z * Z) : Prop :=
  let '(c1, e1, m1) := r1 in
  let '(c2, e2, m2) := r2 in
  (c1 < c2 \/ (c1 = c2 /\ (e1 < e2 \/ (e1 = e2 /\ m1 <= m2))))%Z.

(** * Properties *)

(** ** Lists and results *)

Lemma bind_Ok_inv {A B : Type} (m : result A) (k : A -> result B) (b : B) :
  bind m k = Ok b -> exists a, m = Ok a /\ k a = Ok b.
Proof.
  destruct m as [a | e]; simpl; intros H.
  - exists a. split; [reflexivity | exact H].
  - discriminate H.
Qed.

Lemma index_last_snoc (l : list float) (v : float) :
  index_last (l ++ [v]) = Ok v.
Proof.
  unfold index_last.
  destruct (l ++ [v]) eqn:E.
  - destruct l; discriminate E.
  - rewrite <- E. rewrite last_last. reflexivity.
Qed.

Lemma last_skipn (l : list float) (n : nat) (d : float) :
  (n < length l)%nat -> last (skipn n l) d = last l d.
Proof.
  revert n. induction l as [| a l IH]; intros n Hn; simpl in Hn.
  - lia.
  - destruct n as [| n]; [reflexivity |].
    simpl skipn. rewrite IH by lia.
    destruct l as [| b l]; [simpl in Hn; lia | reflexivity].
Qed.

Lemma index_last_last3 (l : list float) :
  (3 <= length l)%nat -> index_last (last3 l) = index_last l.
Proof.
  intros Hl. unfold last3, index_last.
  assert (Hlen : length (skipn (length l - 3) l) = 3%nat)
    by (rewrite length_skipn; lia).
  destruct (skipn (length l - 3) l) as [| a t] eqn:E; [discriminate Hlen |].
  destruct l as [| b l]; [simpl in Hl; lia |].
  rewrite <- E. rewrite last_skipn by (simpl; lia). reflexivity.
Qed.

(** [push_tempTrack] keeps the new reading last, behind at most four of the
    older ones. *)
Lemma push_tempTrack_snoc (track : list float) (v : float) :
  push_tempTrack track v =
  (if (5 <=? length track)%nat then skipn (length track - 3) track else track) ++ [v].
Proof.
  unfold push_tempTrack. rewrite length_app. simpl length.
  destruct (5 <? length track + 1)%nat eqn:E.
  - apply Nat.ltb_lt in E.
    assert (E' : (5 <=? length track)%nat = true) by (apply Nat.leb_le; lia).
    rewrite E'. rewrite skipn_app.
    replace (length track + 1 - (5 - 1))%nat with (length track - 3)%nat by lia.
    replace (length track - 3 - length track)%nat with 0%nat by lia.
    reflexivity.
  - apply Nat.ltb_ge in E.
    assert (E' : (5 <=? length track)%nat = false) by (apply Nat.leb_gt; lia).
    rewrite E'. reflexivity.
Qed.

Lemma push_tempTrack_length (track : list float) (v : float) :
  (length track <= 5)%nat -> (length (push_tempTrack track v) <= 5)%nat.
Proof.
  intros H. rewrite push_tempTrack_snoc.
  destruct (5 <=? length track)%nat eqn:E; rewrite length_app; simpl.
  - rewrite length_skipn. lia.
  - apply Nat.leb_gt in E. lia.
Qed.

Lemma index_last_push (track : list float) (v : float) :
  index_last (push_tempTrack track v) = Ok v.
Proof. rewrite push_tempTrack_snoc. apply index_last_snoc. Qed.

Lemma streamRoll_nonempty (l : list float) (v : float) :
  index_last l = Ok v -> exists r, streamRoll l = Ok r.
Proof.
  intros H. unfold streamRoll.
  destruct (length l <? 3)%nat; rewrite H; simpl; eexists; reflexivity.
Qed.

(** ** The temperature branch and [ingest] return *)

Lemma ingest_temperature_Ok (s : LoopState) (v : float) :
  exists r,
    streamRoll (push_tempTrack (tempTrack s) v) = Ok r /\
    ingest_temperature s v =
      Ok (set_have_temp
            (set_roll (set_tempTrack (set_tempC s [v]) (push_tempTrack (tempTrack s) v)) [r])
            (accepted (tempTrack s) v),
          [PrintRoll r; PrintTempTrack (push_tempTrack (tempTrack s) v)]).
Proof.
  destruct (streamRoll_nonempty _ _ (index_last_push (tempTrack s) v)) as [r Hr].
  exists r. split; [exact Hr |].
  unfold ingest_temperature, accepted. simpl.
  rewrite Hr. simpl. rewrite index_last_push. simpl.
  destruct (PrimFloat.ltb 5 (PrimFloat.abs (v - r))); reflexivity.
Qed.

Lemma ingest_unfold (s : LoopState) (df : RawRecord) :
  ingest s df =
  match temperature_C df with
  | Some v => ingest_temperature (ingest_columns s df) v
  | None => Ok (ingest_columns s df, [])
  end.
Proof. reflexivity. Qed.

Lemma ingest_columns_tempTrack (s : LoopState) (df : RawRecord) :
  tempTrack (ingest_columns s df) = tempTrack s.
Proof.
  unfold ingest_columns.
  destruct (humidity df), (wind_direction df), (wind_speed_ms df); reflexivity.
Qed.

Lemma ingest_columns_have_temp (s : LoopState) (df : RawRecord) :
  have_temp (ingest_columns s df) = have_temp s.
Proof.
  unfold ingest_columns.
  destruct (humidity df), (wind_direction df), (wind_speed_ms df); reflexivity.
Qed.

Lemma ingest_Ok (s : LoopState) (df : RawRecord) :
  exists s' out, ingest s df = Ok (s', out).
Proof.
  rewrite ingest_unfold. destruct (temperature_C df) as [v |].
  - destruct (ingest_temperature_Ok (ingest_columns s df) v) as [r [_ H]].
    rewrite H. eauto.
  - eauto.
Qed.

(** What one [ingest] does to the trackers and the history. *)
Lemma ingest_effect (s s' : LoopState) (df : RawRecord) (out : list effect) :
  ingest s df = Ok (s', out) ->
  have_hum s' = (have_hum s || observed humidity [df]) /\
  have_wd s' = (have_wd s || observed wind_direction [df]) /\
  have_ws s' = (have_ws s || observed wind_speed_ms [df]) /\
  have_temp s' = match temperature_C df with
                 | Some v => accepted (tempTrack s) v
                 | None => have_temp s
                 end /\
  tempTrack s' = match temperature_C df with
                 | Some v => push_tempTrack (tempTrack s) v
                 | None => tempTrack s
                 end.
Proof.
  rewrite ingest_unfold. intros H.
  assert (Hc : have_hum (ingest_columns s df) = (have_hum s || observed humidity [df]) /\
               have_wd (ingest_columns s df) = (have_wd s || observed wind_direction [df]) /\
               have_ws (ingest_columns s df) = (have_ws s || observed wind_speed_ms [df])).
  { unfold ingest_columns, observed. simpl.
    destruct (humidity df), (wind_direction df), (wind_speed_ms df); simpl;
      rewrite ?orb_true_r, ?orb_false_r; auto. }
  destruct Hc as [Hh [Hd Hs]].
  destruct (temperature_C df) as [v |].
  - destruct (ingest_temperature_Ok (ingest_columns s df) v) as [r [_ E]].
    rewrite E in H. injection H as <- _. simpl.
    rewrite ingest_columns_tempTrack. auto.
  - injection H as <- _.
    rewrite ingest_columns_tempTrack, ingest_columns_have_temp. auto.
Qed.

(** ** Wind direction correction *)

(** C1.  The claim is that [wd_correct] returns the bearing turned by -90
    degrees and brought into [0, 360): 315 for 45 and 10 for 100.  The body
    computes exactly these values in [new_wd], but it has no [return]: the
    call evaluates to [None] at both inputs, and so do the three wind
    direction entries of the upload. *)
Theorem wd_correct_returns_None :
  wd_correct_new_wd 45 = 315 /\ wd_correct 45 = PyNone /\
  wd_correct_new_wd 100 = 10 /\ wd_correct 100 = PyNone /\
  (forall wd, wd_correct wd <> PyFloat (wd_correct_new_wd wd)) /\
  (exists wdata,
     weather_data "ID" "KEY" [10] [50] [45] [3] = Ok wdata /\
     dict_get "winddir_avg2m" wdata = Some PyNone /\
     dict_get "winddir" wdata = Some PyNone /\
     dict_get "windgustdir" wdata = Some PyNone).
Proof.
  repeat split; try (vm_compute; reflexivity).
  - intros wd H. discriminate H.
  - eexists. split; [vm_compute; reflexivity |].
    repeat split; vm_compute; reflexivity.
Qed.

(** ** The smoother *)

(** C5.  [streamRoll] computes, for every history, what the design document
    says: over the whole list when it has fewer than three entries, over
    the last three otherwise, the mean plus the distance of the latest entry
    to the mean divided by the number of entries (on the empty list both
    raise, for want of a latest entry).  For [10, 10, 13] the estimate is
    11 + 2/3, and the reading 13 arriving on the history [10, 10, 10] is
    accepted. *)
Theorem streamRoll_smoother_estimate :
  (forall daList, streamRoll daList = smoother_estimate daList) /\
  streamRoll [10; 10; 13] = Ok (11 + 2 / 3) /\
  PrimFloat.leb (PrimFloat.abs (13 - (11 + 2 / 3))) 5 = true /\
  (exists s' out,
     ingest (set_tempTrack init [10; 10; 10]) (only_temperature 13)
       = Ok (s', out) /\
     roll s' = [11 + 2 / 3] /\ have_temp s' = true).
Proof.
  split; [| split; [| split]].
  - intros daList. unfold streamRoll, smoother_estimate.
    destruct (length daList <? 3)%nat eqn:E.
    + reflexivity.
    + apply Nat.ltb_ge in E. cbv zeta.
      rewrite (index_last_last3 daList E). reflexivity.
  - vm_compute. reflexivity.
  - vm_compute. reflexivity.
  - eexists. eexists. split; [vm_compute; reflexivity |].
    split; vm_compute; reflexivity.
Qed.

(** C3, as claimed: on the history [10, 10, 10] the reading 20 gives an
    estimate near 13.33 and is rejected, the temperature tracker staying
    down.  It is not so: the branch returns with an estimate that is not
    within 0.01 of 13.33, and with the tracker up. *)
Lemma reading_20_not_rejected :
  exists s' out r,
    ingest three_tens (only_temperature 20) = Ok (s', out) /\
    roll s' = [r] /\
    PrimFloat.ltb (PrimFloat.abs (r - 13.33)) 0.01 = false /\
    PrimFloat.ltb 5 (PrimFloat.abs (20 - r)) = false /\
    have_temp s' = true.
Proof.
  eexists. eexists. eexists.
  split; [vm_compute; reflexivity |].
  split; [reflexivity |].
  repeat split; vm_compute; reflexivity.
Qed.

(** C3, amended.  On the history [10, 10, 10] the reading 20 gives the
    estimate 40/3 + (20 - 40/3)/3, about 15.56: the mean of the last three
    entries [10, 10, 20] plus a third of the distance of 20 to it.  The
    reading is 4.44 away from it, which is within 5, so it is accepted and
    the temperature tracker goes up. *)
Theorem reading_20_accepted :
  streamRoll [10; 10; 10; 20] = Ok (40 / 3 + (20 - 40 / 3) / 3) /\
  exists s' out r,
    ingest three_tens (only_temperature 20) = Ok (s', out) /\
    tempTrack s' = [10; 10; 10; 20] /\
    roll s' = [r] /\
    PrimFloat.ltb 15.55 r = true /\ PrimFloat.ltb r 15.56 = true /\
    PrimFloat.ltb 4.44 (PrimFloat.abs (20 - r)) = true /\
    PrimFloat.ltb (PrimFloat.abs (20 - r)) 4.45 = true /\
    PrimFloat.ltb 5 (PrimFloat.abs (20 - r)) = false /\
    have_temp three_tens = false /\ have_temp s' = true.
Proof.
  split; [vm_compute; reflexivity |].
  eexists. eexists. eexists.
  split; [vm_compute; reflexivity |].
  repeat split; vm_compute; reflexivity.
Qed.

(** ** The temperature offset *)

(** C10.  The temperature [display_data] prints and the [tempf] entry
    [upload_weather] sends are, for every temperature buffer, the mean of
    the buffer raised by 10.001 and then converted to Fahrenheit; the dew
    point entry is computed from the same raised value. *)
Theorem reported_temperature_offset :
  (forall h c wd ws d,
     display_data h c wd ws = Ok d ->
     d_temperature d = ((np_mean c + 10.001) * 1.8) + 32) /\
  (forall net id key c h wd ws out,
     upload_weather net id key c h wd ws = Ok out ->
     exists wdata rest,
       out = PrintUploading :: UrlOpen WU_URL wdata :: rest /\
       dict_get "tempf" wdata = Some (PyFloat (((np_mean c + 10.001) * 1.8) + 32)) /\
       dict_get "dewPtF" wdata =
         Some (PyFloat (rht_to_dp (((np_mean c + 10.001) * 1.8) + 32) (np_mean h)))).
Proof.
  split.
  - intros h c wd ws d H. unfold display_data in H.
    apply bind_Ok_inv in H as (x1 & _ & H).
    apply bind_Ok_inv in H as (x2 & _ & H).
    apply bind_Ok_inv in H as (x3 & _ & H).
    injection H as <-. reflexivity.
  - intros net id key c h wd ws out H. unfold upload_weather in H.
    apply bind_Ok_inv in H as (wdata & Hw & H).
    injection H as <-. exists wdata. eexists. split; [reflexivity |].
    unfold weather_data in Hw.
    apply bind_Ok_inv in Hw as (x1 & _ & Hw).
    apply bind_Ok_inv in Hw as (x2 & _ & Hw).
    apply bind_Ok_inv in Hw as (x3 & _ & Hw).
    injection Hw as <-. split; reflexivity.
Qed.

Lemma reported_temperature_offset_witness :
  (exists d, display_data [50] [10] [45] [3] = Ok d /\
             d_temperature d = ((np_mean [10] + 10.001) * 1.8) + 32) /\
  (exists out wdata rest,
     upload_weather NetFails "ID" "KEY" [10] [50] [45] [3] = Ok out /\
     out = PrintUploading :: UrlOpen WU_URL wdata :: rest /\
     dict_get "tempf" wdata = Some (PyFloat (((np_mean [10] + 10.001) * 1.8) + 32))).
Proof.
  split.
  - eexists. split; [vm_compute; reflexivity |].
    apply (proj1 reported_temperature_offset [50] [10] [45] [3]).
    vm_compute. reflexivity.
  - destruct (proj2 reported_temperature_offset NetFails "ID"%string "KEY"%string
                [10] [50] [45] [3] _ eq_refl) as (wdata & rest & E & Ht & _).
    eexists. exists wdata, rest. split; [reflexivity |]. split; [exact E | exact Ht].
Defined.

(** ** A sequence of records *)

Lemma observed_cons (column : RawRecord -> option float) (df : RawRecord)
    (dfs : list RawRecord) :
  observed column (df :: dfs) = (observed column [df] || observed column dfs).
Proof. unfold observed. simpl. rewrite orb_false_r. reflexivity. Qed.

Lemma history_length (vs : list float) :
  forall track, (length track <= 5)%nat -> (length (history track vs) <= 5)%nat.
Proof.
  induction vs as [| v vs IH]; intros track H; simpl.
  - exact H.
  - apply IH. apply push_tempTrack_length. exact H.
Qed.

Lemma history_snoc (vs : list float) (v : float) (track : list float) :
  history track (vs ++ [v]) = push_tempTrack (history track vs) v.
Proof. unfold history. rewrite fold_left_app. reflexivity. Qed.

(** [latest_accepted] is the verdict on the last reading, given the history
    the earlier ones left. *)
Lemma latest_accepted_snoc (vs : list float) (v : float) :
  forall track, latest_accepted track (vs ++ [v]) = accepted (history track vs) v.
Proof.
  induction vs as [| w vs IH]; intros track.
  - reflexivity.
  - change ((w :: vs) ++ [v]) with (w :: (vs ++ [v])).
    change (history track (w :: vs)) with (history (push_tempTrack track w) vs).
    rewrite <- IH.
    destruct (vs ++ [v]) eqn:E.
    + destruct vs; discriminate E.
    + reflexivity.
Qed.

(** The state a sequence of records leaves: each tracker other than the
    temperature's is up when it was up or its column came; the temperature
    tracker carries the verdict on the last reading; the history is the one
    the readings built. *)
Lemma ingest_all_effect (dfs : list RawRecord) :
  forall s,
  exists s',
    ingest_all s dfs = Ok s' /\
    have_hum s' = (have_hum s || observed humidity dfs) /\
    have_wd s' = (have_wd s || observed wind_direction dfs) /\
    have_ws s' = (have_ws s || observed wind_speed_ms dfs) /\
    have_temp s' = match temperatures dfs with
                   | [] => have_temp s
                   | _ :: _ => latest_accepted (tempTrack s) (temperatures dfs)
                   end /\
    tempTrack s' = history (tempTrack s) (temperatures dfs).
Proof.
  induction dfs as [| df dfs IH]; intros s.
  - exists s. simpl. rewrite !orb_false_r. repeat split.
  - destruct (ingest_Ok s df) as (s1 & out & E).
    destruct (ingest_effect _ _ _ _ E) as (Hh & Hd & Hs & Ht & Hk).
    destruct (IH s1) as (s' & E' & Hh' & Hd' & Hs' & Ht' & Hk').
    exists s'. simpl ingest_all. rewrite E. cbn [bind]. split; [exact E' |].
    rewrite !(observed_cons _ df dfs), !orb_assoc, <- Hh, <- Hd, <- Hs.
    split; [exact Hh' |]. split; [exact Hd' |]. split; [exact Hs' |].
    unfold temperatures in *. simpl flat_map.
    destruct (temperature_C df) as [v |]; simpl app.
    + rewrite Hk in Ht', Hk'. split.
      * rewrite Ht'. simpl latest_accepted.
        destruct (flat_map _ dfs); [exact Ht | reflexivity].
      * exact Hk'.
    + rewrite Hk, Ht in *. split; [exact Ht' | exact Hk'].
Qed.

(** ** The length of the history *)

(** C6.  Whatever records are taken in from the start of the loop, and
    however many, they are all taken in (no exception) and the temperature
    history holds at most five readings. *)
Theorem tempTrack_at_most_five :
  forall dfs : list RawRecord,
  exists s', ingest_all init dfs = Ok s' /\ (length (tempTrack s') <= 5)%nat.
Proof.
  intros dfs.
  destruct (ingest_all_effect dfs init) as (s' & E & _ & _ & _ & _ & Hk).
  exists s'. split; [exact E |].
  rewrite Hk. apply history_length. simpl. lia.
Qed.

(** ** Completeness *)

(** C7, as claimed: the four trackers are up exactly when each of humidity,
    an accepted temperature, wind direction and wind speed came at least
    once since the trackers were reset.  It is not so in the cycle
    [cycle_with_spike]: each column came, the temperature 10 was accepted
    when it came, and the test fails all the same, because the spike of 40
    that followed took the temperature tracker down. *)
Lemma accepted_then_spike_incomplete :
  exists s',
    ingest_all init cycle_with_spike = Ok s' /\
    observed humidity cycle_with_spike
    && some_accepted (tempTrack init) (temperatures cycle_with_spike)
    && observed wind_direction cycle_with_spike
    && observed wind_speed_ms cycle_with_spike = true /\
    isComplete s' = false.
Proof.
  eexists. split; [vm_compute; reflexivity |].
  split; vm_compute; reflexivity.
Qed.

(** C7, amended.  Starting with the four trackers down, after any sequence
    of records the completeness test holds exactly when humidity, wind
    direction and wind speed each came at least once and the last
    temperature that came was accepted; the order of the records counts only
    in deciding which temperature is the last and what history it met. *)
Theorem isComplete_iff_observed_latest :
  forall (s : LoopState) (dfs : list RawRecord),
    trackers_down s ->
    exists s',
      ingest_all s dfs = Ok s' /\
      isComplete s' =
        observed humidity dfs
        && latest_accepted (tempTrack s) (temperatures dfs)
        && observed wind_direction dfs
        && observed wind_speed_ms dfs.
Proof.
  intros s dfs (Hh & Ht & Hd & Hs).
  destruct (ingest_all_effect dfs s) as (s' & E & Hh' & Hd' & Hs' & Ht' & _).
  exists s'. split; [exact E |].
  unfold isComplete. rewrite Hh', Hd', Hs', Ht', Hh, Hd, Hs, Ht. simpl.
  destruct (temperatures dfs); reflexivity.
Qed.

Lemma isComplete_iff_observed_latest_witness :
  exists s',
    ingest_all init cycle_with_spike = Ok s' /\
    isComplete s' =
      observed humidity cycle_with_spike
      && latest_accepted (tempTrack init) (temperatures cycle_with_spike)
      && observed wind_direction cycle_with_spike
      && observed wind_speed_ms cycle_with_spike.
Proof.
  apply (isComplete_iff_observed_latest init cycle_with_spike).
  repeat split.
Defined.

(** ** One iteration of the loop *)

Lemma snoc_not_nil (l : list float) (v : float) : l ++ [v] <> [].
Proof. destruct l; discriminate. Qed.

(** [ingest] leaves the counters alone and sends nothing. *)
Lemma ingest_frame (s s' : LoopState) (df : RawRecord) (out : list effect) :
  ingest s df = Ok (s', out) ->
  pulse s' = pulse s /\ upload_timer s' = upload_timer s /\
  existsb is_UrlOpen out = false.
Proof.
  rewrite ingest_unfold. intros H.
  assert (Hc : pulse (ingest_columns s df) = pulse s /\
               upload_timer (ingest_columns s df) = upload_timer s).
  { unfold ingest_columns.
    destruct (humidity df), (wind_direction df), (wind_speed_ms df); auto. }
  destruct Hc as [Hp Hu].
  destruct (temperature_C df) as [v |].
  - destruct (ingest_temperature_Ok (ingest_columns s df) v) as [r [_ E]].
    rewrite E in H. injection H as <- <-. simpl. auto.
  - injection H as <- <-. auto.
Qed.

Lemma ingest_columns_buffers_filled (s : LoopState) (df : RawRecord) :
  buffers_filled s -> buffers_filled (ingest_columns s df).
Proof.
  intros (Hh & Ht & Hd & Hs). unfold ingest_columns, buffers_filled.
  destruct (humidity df), (wind_direction df), (wind_speed_ms df); simpl;
    repeat split; intros; auto using snoc_not_nil.
Qed.

Lemma ingest_buffers_filled (s s' : LoopState) (df : RawRecord) (out : list effect) :
  buffers_filled s -> ingest s df = Ok (s', out) -> buffers_filled s'.
Proof.
  intros Hs. rewrite ingest_unfold. intros H.
  apply (ingest_columns_buffers_filled s df) in Hs.
  destruct (temperature_C df) as [v |].
  - destruct (ingest_temperature_Ok (ingest_columns s df) v) as [r [_ E]].
    rewrite E in H. injection H as <- _.
    destruct Hs as (Hh & Ht & Hd & Hw).
    unfold buffers_filled. simpl. repeat split; auto.
    intros _. exists v. reflexivity.
  - injection H as <- _. exact Hs.
Qed.

(** What [receive] does: the counters. *)
Lemma receive_frame (s s1 : LoopState) (ev : event) (out : list effect) :
  receive s ev = Ok (s1, out) ->
  upload_timer s1 = upload_timer s /\
  pulse s1 = match ev with
             | Empty => (pulse s + 1)%Z
             | GotLine _ => (pulse s - 1)%Z
             end /\
  existsb is_UrlOpen out = false.
Proof.
  unfold receive. destruct ev as [| l].
  - intros H. injection H as <- <-. simpl. auto.
  - simpl pulse. destruct (0 <? pulse s - 1)%Z.
    + intros H. apply bind_Ok_inv in H as (df & _ & H).
      apply ingest_frame in H as (Hp & Hu & Ho). simpl in Hp, Hu. auto.
    + intros H. injection H as <- <-. simpl. auto.
Qed.

Lemma receive_buffers_filled (s s1 : LoopState) (ev : event) (out : list effect) :
  buffers_filled s -> receive s ev = Ok (s1, out) -> buffers_filled s1.
Proof.
  intros Hs. unfold receive. destruct ev as [| l].
  - intros H. injection H as <- _. exact Hs.
  - simpl pulse. destruct (0 <? pulse s - 1)%Z.
    + intros H. apply bind_Ok_inv in H as (df & _ & H).
      apply (ingest_buffers_filled (set_pulse s (pulse s - 1)) s1 df out);
        [exact Hs | exact H].
    + intros H. injection H as <- _. exact Hs.
Qed.

(** [receive] raises only on a line it decodes: one that is not telemetry,
    met while [pulse] is positive. *)
Lemma receive_Ok (s : LoopState) (ev : event) :
  (forall e, ev = GotLine (NotTelemetry e) -> (pulse s - 1 <= 0)%Z) ->
  exists s1 out, receive s ev = Ok (s1, out).
Proof.
  intros Hev. unfold receive. destruct ev as [| l]; [eauto |].
  simpl pulse. destruct (0 <? pulse s - 1)%Z eqn:E; [| eauto].
  destruct l as [e | df].
  - apply Z.ltb_lt in E. specialize (Hev e eq_refl). lia.
  - simpl. apply ingest_Ok.
Qed.

Section LoopFacts.

Variables id key : string.

(** What the block guarded by the completeness test does when it returns. *)
Lemma deliver_inv (net : net_outcome) (s s' : LoopState) (out : list effect) :
  deliver id key net s = Ok (s', out) ->
  exists d out_upload,
    display_data (hum s) (tempC s) (windDir s) (windSpeed s) = Ok d /\
    out = PrintDisplay d ::
          (if (pulse_timeout <? pulse s)%Z then [PrintRebooting] else []) ++ out_upload /\
    ((UPLOAD_INTERVAL <? upload_timer s)%Z = true ->
       s' = flush s /\
       exists t, index_last (tempC s) = Ok t /\
         upload_weather net id key [t] (hum s) (windDir s) (windSpeed s)
           = Ok out_upload) /\
    ((UPLOAD_INTERVAL <? upload_timer s)%Z = false ->
       s' = reset_trackers s /\ out_upload = []).
Proof.
  unfold deliver. intros H.
  apply bind_Ok_inv in H as (d & Hd & H).
  apply bind_Ok_inv in H as ([s2 o2] & H2 & H).
  injection H as <- <-.
  exists d, o2. split; [exact Hd |]. split; [reflexivity |].
  destruct (UPLOAD_INTERVAL <? upload_timer s)%Z.
  - apply bind_Ok_inv in H2 as (o & Ho & H2). injection H2 as <- <-.
    split; [| intros C; discriminate C].
    intros _. split; [reflexivity |].
    unfold WEATHER_UPLOAD in Ho.
    apply bind_Ok_inv in Ho as (t & Ht & Ho). eauto.
  - injection H2 as <- <-.
    split; [intros C; discriminate C |]. auto.
Qed.

(** With the four trackers up and their buffers filled, the block
    returns, whatever the network does. *)
Lemma deliver_Ok (net : net_outcome) (s : LoopState) :
  buffers_filled s -> isComplete s = true ->
  exists s' out, deliver id key net s = Ok (s', out).
Proof.
  intros (Hh & Ht & Hd & Hw) Hc. unfold isComplete in Hc.
  apply andb_prop in Hc as [Hc Hws]. apply andb_prop in Hc as [Hc Hwd].
  apply andb_prop in Hc as [Hhum Htemp].
  destruct (Ht Htemp) as [v Hv].
  specialize (Hd Hwd). specialize (Hw Hws).
  unfold deliver, display_data, upload_weather, weather_data, WEATHER_UPLOAD.
  rewrite Hv.
  destruct (windDir s) as [| d0 ds]; [contradiction |].
  destruct (windSpeed s) as [| w0 ws]; [contradiction |].
  simpl.
  destruct (UPLOAD_INTERVAL <? upload_timer s)%Z; simpl; eauto.
Qed.

Lemma loop_body_unfold (net : net_outcome) (s : LoopState) (ev : event) :
  loop_body id key net s ev =
  ('(s1, out) <- receive (tick s) ev ;;
   if isComplete s1 then
     '(s', out') <- deliver id key net s1 ;; Ok (s', out ++ out')
   else Ok (s1, out)).
Proof. reflexivity. Qed.

(** The iteration returns unless it decodes a line that is not
    telemetry. *)
Lemma loop_body_Ok (net : net_outcome) (s : LoopState) (ev : event) :
  buffers_filled s ->
  (forall e, ev = GotLine (NotTelemetry e) -> (pulse s - 1 <= 0)%Z) ->
  exists s' out, loop_body id key net s ev = Ok (s', out).
Proof.
  intros Hs Hev. rewrite loop_body_unfold.
  destruct (receive_Ok (tick s) ev Hev) as (s1 & out & E).
  rewrite E. cbn [bind].
  destruct (isComplete s1) eqn:Hc; [| eauto].
  assert (Hs1 : buffers_filled s1)
    by (apply (receive_buffers_filled (tick s) s1 ev out); [exact Hs | exact E]).
  destruct (deliver_Ok net s1 Hs1 Hc) as (s' & out' & E').
  rewrite E'. cbn [bind]. eauto.
Qed.

Lemma reset_trackers_wf (s : LoopState) : wf (reset_trackers s).
Proof.
  unfold wf, buffers_filled. simpl.
  repeat split; intros C; discriminate C.
Qed.

Lemma flush_wf (s : LoopState) : wf (flush s).
Proof. unfold flush. apply reset_trackers_wf. Qed.

(** [wf] holds between any two iterations. *)
Lemma loop_body_wf (net : net_outcome) (s s' : LoopState) (ev : event)
    (out : list effect) :
  wf s -> loop_body id key net s ev = Ok (s', out) -> wf s'.
Proof.
  intros [Hs _]. rewrite loop_body_unfold. intros H.
  apply bind_Ok_inv in H as ([s1 o1] & E & H).
  destruct (isComplete s1) eqn:Hc.
  - apply bind_Ok_inv in H as ([s2 o2] & E' & H). injection H as <- _.
    apply deliver_inv in E' as (d & ou & _ & _ & Hf & Hr).
    destruct (UPLOAD_INTERVAL <? upload_timer s1)%Z.
    + destruct (Hf eq_refl) as [-> _]. apply flush_wf.
    + destruct (Hr eq_refl) as [-> _]. apply reset_trackers_wf.
  - injection H as <- _. split; [| exact Hc].
    apply (receive_buffers_filled (tick s) s1 ev o1); [exact Hs | exact E].
Qed.

Lemma init_wf : wf init.
Proof.
  unfold wf, buffers_filled. simpl. repeat split; intros C; discriminate C.
Qed.

Lemma run_wf (evs : list (event * net_outcome)) :
  forall s s' out, wf s -> run id key s evs = Ok (s', out) -> wf s'.
Proof.
  induction evs as [| [ev net] evs IH]; intros s s' out Hs H; simpl in H.
  - injection H as <- _. exact Hs.
  - apply bind_Ok_inv in H as ([s1 o1] & E & H).
    apply bind_Ok_inv in H as ([s2 o2] & E' & H). injection H as <- _.
    apply (IH s1 s2 o2); [| exact E'].
    apply (loop_body_wf net s s1 ev o1 Hs E).
Qed.

End LoopFacts.

(** ** Lines that are not telemetry *)

(** C2.  The claim is that a line that is not valid JSON telemetry is
    skipped and the loop waits for the next line.  The loop does skip such
    a line while [pulse] is not positive, which is how it gets past the
    header lines "that draw errors": met first thing, the line leaves
    everything but the two counters as it was.  But the same line met after
    three silent seconds ([pulse] is 3, and 2 once the line is counted) is
    decoded: [pd.read_json] raises, the [try] has a handler for [Empty]
    only, and the exception ends the loop. *)
Theorem unparsable_line_ends_loop :
  run "ID" "KEY" init [ (GotLine (NotTelemetry ValueError), NetFails) ]
    = Ok (set_pulse (tick init) (-1), []) /\
  run "ID" "KEY" init
    [ (Empty, NetFails); (Empty, NetFails); (Empty, NetFails);
      (GotLine (NotTelemetry ValueError), NetFails) ] = Raise ValueError /\
  ~ (exists s' out,
       loop_body "ID" "KEY" NetFails (set_pulse init 3)
         (GotLine (NotTelemetry ValueError)) = Ok (s', out)).
Proof.
  split; [vm_compute; reflexivity |].
  split; [vm_compute; reflexivity |].
  intros (s' & out & H). vm_compute in H. discriminate H.
Qed.

(** ** The end of a cycle *)

Lemma awaiting_wind_speed_reached :
  exists out,
    run "ID" "KEY" init
      [ (Empty, NetFails); (Empty, NetFails); (Empty, NetFails); (Empty, NetFails);
        (Empty, NetFails); (Empty, NetFails); (Empty, NetFails); (Empty, NetFails);
        (GotLine (Telemetry (only_humidity 50)), NetFails);
        (GotLine (Telemetry (only_temperature 10)), NetFails);
        (GotLine (Telemetry (only_wind_direction 45)), NetFails) ]
    = Ok (awaiting_wind_speed, out).
Proof. eexists. vm_compute. reflexivity. Qed.

(** C4, as claimed: whenever the four trackers come up, the four buffers
    are cleared together with the trackers before the next line.  It is not
    so in the state [awaiting_wind_speed], eleven iterations after the
    start: the wind speed record completes the cycle, the iteration resets
    the trackers, and the four buffers keep their values. *)
Lemma completion_keeps_buffers :
  exists s1 out1 s' out,
    receive (tick awaiting_wind_speed) (GotLine (Telemetry (only_wind_speed 3)))
      = Ok (s1, out1) /\
    isComplete s1 = true /\
    loop_body "ID" "KEY" NetFails awaiting_wind_speed
      (GotLine (Telemetry (only_wind_speed 3))) = Ok (s', out) /\
    trackers_down s' /\
    hum s' = [50] /\ tempC s' = [10] /\ windDir s' = [45] /\ windSpeed s' = [3].
Proof.
  eexists. eexists. eexists. eexists.
  split; [vm_compute; reflexivity |].
  split; [reflexivity |].
  split; [vm_compute; reflexivity |].
  repeat split.
Qed.

(** C4, amended.  Whenever the four trackers come up in an iteration, the
    iteration resets the four trackers before the next line is read, and
    the temperature history is kept.  The four buffers are cleared, all
    together and with the two counters, only when more than
    [UPLOAD_INTERVAL] iterations went by since the last clearing;
    otherwise the buffers keep what they hold, so that a buffer gathers the
    values of every cycle since the last upload. *)
Theorem completion_resets_trackers :
  forall id key net s ev s1 out1,
    buffers_filled s ->
    receive (tick s) ev = Ok (s1, out1) ->
    isComplete s1 = true ->
    exists s' out,
      loop_body id key net s ev = Ok (s', out) /\
      trackers_down s' /\
      tempTrack s' = tempTrack s1 /\
      ((UPLOAD_INTERVAL < upload_timer s + 1)%Z ->
         buffers_empty s' /\ pulse s' = 0%Z /\ upload_timer s' = 0%Z) /\
      ((upload_timer s + 1 <= UPLOAD_INTERVAL)%Z ->
         hum s' = hum s1 /\ tempC s' = tempC s1 /\ windDir s' = windDir s1 /\
         windSpeed s' = windSpeed s1 /\ pulse s' = pulse s1 /\
         upload_timer s' = (upload_timer s + 1)%Z).
Proof.
  intros id key net s ev s1 out1 Hs E Hc.
  assert (Hs1 : buffers_filled s1)
    by (apply (receive_buffers_filled (tick s) s1 ev out1); [exact Hs | exact E]).
  destruct (receive_frame _ _ _ _ E) as (Hu & _ & _). simpl in Hu.
  destruct (deliver_Ok id key net s1 Hs1 Hc) as (s' & out & E').
  exists s', (out1 ++ out). rewrite loop_body_unfold, E. cbn [bind].
  rewrite Hc, E'. cbn [bind]. split; [reflexivity |].
  apply deliver_inv in E' as (d & ou & _ & _ & Hf & Hr).
  rewrite Hu in Hf, Hr.
  destruct (UPLOAD_INTERVAL <? upload_timer s + 1)%Z eqn:B.
  - destruct (Hf eq_refl) as [-> _]. apply Z.ltb_lt in B.
    split; [repeat split |]. split; [reflexivity |].
    split; [intros _; repeat split | intros C; lia].
  - destruct (Hr eq_refl) as [-> _]. apply Z.ltb_ge in B.
    split; [repeat split |]. split; [reflexivity |].
    split; [intros C; lia | intros _; simpl; repeat split; exact Hu].
Qed.

Lemma completion_resets_trackers_witness :
  exists s' out,
    loop_body "ID" "KEY" NetFails awaiting_wind_speed
      (GotLine (Telemetry (only_wind_speed 3))) = Ok (s', out) /\
    trackers_down s' /\ hum s' = [50] /\ windSpeed s' = [3].
Proof.
  destruct (completion_resets_trackers "ID" "KEY" NetFails awaiting_wind_speed
              (GotLine (Telemetry (only_wind_speed 3)))
              (mkLoopState true true true true 4 12 [50] [10] [45] [3] [10] [10]) [])
    as (s' & out & E & Hd & _ & _ & Hk).
  - unfold buffers_filled. simpl. repeat split; intros; try discriminate.
    exists 10. reflexivity.
  - vm_compute. reflexivity.
  - reflexivity.
  - exists s', out. split; [exact E |]. split; [exact Hd |].
    assert (Hle : (upload_timer awaiting_wind_speed + 1 <= UPLOAD_INTERVAL)%Z)
      by (vm_compute; discriminate).
    destruct (Hk Hle) as (Hh & _ & _ & Hw & _). split; [exact Hh | exact Hw].
Defined.

(** ** The flush *)

(** C8.  When the block that ends a cycle clears the buffers (more than
    [UPLOAD_INTERVAL] iterations since the last upload), what it does to
    the state is the flush, in one step: the four buffers are empty, the
    four trackers are down, [pulse] and [upload_timer] are 0, and the
    temperature history and its estimate are what they were. *)
Theorem flush_clears_all_but_history :
  forall id key net s s' out,
    (UPLOAD_INTERVAL < upload_timer s)%Z ->
    deliver id key net s = Ok (s', out) ->
    s' = flush s /\
    buffers_empty s' /\ trackers_down s' /\
    pulse s' = 0%Z /\ upload_timer s' = 0%Z /\
    tempTrack s' = tempTrack s /\ roll s' = roll s.
Proof.
  intros id key net s s' out Hlt H.
  apply deliver_inv in H as (d & ou & _ & _ & Hf & _).
  apply Z.ltb_lt in Hlt. destruct (Hf Hlt) as [-> _].
  split; [reflexivity |]. repeat split.
Qed.

Lemma flush_clears_all_but_history_witness :
  exists s' out,
    deliver "ID" "KEY" NetFails complete_late = Ok (s', out) /\
    buffers_empty s' /\ trackers_down s' /\ pulse s' = 0%Z /\
    tempTrack s' = [10; 10; 12].
Proof.
  destruct (deliver_Ok "ID" "KEY" NetFails complete_late) as (s' & out & E).
  - unfold buffers_filled. simpl. repeat split; intros; try discriminate.
    exists 10. reflexivity.
  - reflexivity.
  - exists s', out. split; [exact E |].
    assert (Hlt : (UPLOAD_INTERVAL < upload_timer complete_late)%Z)
      by (vm_compute; reflexivity).
    destruct (flush_clears_all_but_history "ID" "KEY" NetFails complete_late s' out Hlt E)
      as (_ & Hb & Ht & Hp & _ & Hk & _).
    split; [exact Hb |]. split; [exact Ht |]. split; [exact Hp | exact Hk].
Defined.

(** ** A failed upload *)

Lemma upload_weather_inv (net : net_outcome) (id key : string)
    (c h wd ws : list float) (out : list effect) :
  upload_weather net id key c h wd ws = Ok out ->
  exists wdata,
    out = [PrintUploading; UrlOpen WU_URL wdata] ++
          match net with
          | Responds html => [PrintServerResponse html]
          | NetFails => [PrintException]
          end.
Proof.
  unfold upload_weather. intros H.
  apply bind_Ok_inv in H as (wdata & _ & H). injection H as <-.
  exists wdata. reflexivity.
Qed.

(** An iteration sends a request only when more than [UPLOAD_INTERVAL]
    iterations were counted; it then leaves [upload_timer] at 0, and a
    request that fails is reported by the handler. *)
Lemma loop_body_upload_inv (id key : string) (net : net_outcome)
    (s s' : LoopState) (ev : event) (out : list effect) :
  loop_body id key net s ev = Ok (s', out) ->
  existsb is_UrlOpen out = true ->
  (UPLOAD_INTERVAL < upload_timer s + 1)%Z /\
  upload_timer s' = 0%Z /\
  (net = NetFails -> In PrintException out).
Proof.
  rewrite loop_body_unfold. intros H Hu.
  apply bind_Ok_inv in H as ([s1 o1] & E & H).
  destruct (receive_frame _ _ _ _ E) as (Ht & _ & Ho1). simpl in Ht.
  destruct (isComplete s1).
  - apply bind_Ok_inv in H as ([s2 o2] & E' & H). injection H as <- <-.
    apply deliver_inv in E' as (d & ou & _ & -> & Hf & Hr).
    rewrite Ht in Hf, Hr.
    destruct (UPLOAD_INTERVAL <? upload_timer s + 1)%Z eqn:B.
    + destruct (Hf eq_refl) as [-> (t & _ & Hup)].
      apply Z.ltb_lt in B. split; [exact B |]. split; [reflexivity |].
      intros ->. apply upload_weather_inv in Hup as [wdata ->].
      apply in_or_app. right. right. apply in_or_app. right.
      simpl. auto.
    + destruct (Hr eq_refl) as [_ ->].
      rewrite existsb_app, Ho1 in Hu. simpl in Hu.
      rewrite existsb_app in Hu.
      destruct (pulse_timeout <? pulse s1)%Z; discriminate Hu.
  - injection H as _ <-. rewrite Ho1 in Hu. discriminate Hu.
Qed.

(** The state an iteration leaves does not depend on what the network
    does. *)
Lemma loop_body_state_net (id key : string) (net net' : net_outcome)
    (s s1 s2 : LoopState) (ev : event) (o1 o2 : list effect) :
  loop_body id key net s ev = Ok (s1, o1) ->
  loop_body id key net' s ev = Ok (s2, o2) ->
  s1 = s2.
Proof.
  rewrite !loop_body_unfold. intros H1 H2.
  apply bind_Ok_inv in H1 as ([r1 p1] & E1 & H1).
  apply bind_Ok_inv in H2 as ([r2 p2] & E2 & H2).
  rewrite E1 in E2. injection E2 as <- <-.
  destruct (isComplete r1).
  - apply bind_Ok_inv in H1 as ([t1 q1] & D1 & H1). injection H1 as <- _.
    apply bind_Ok_inv in H2 as ([t2 q2] & D2 & H2). injection H2 as <- _.
    apply deliver_inv in D1 as (d1 & u1 & _ & _ & Hf1 & Hr1).
    apply deliver_inv in D2 as (d2 & u2 & _ & _ & Hf2 & Hr2).
    destruct (UPLOAD_INTERVAL <? upload_timer r1)%Z.
    + destruct (Hf1 eq_refl) as [-> _]. destruct (Hf2 eq_refl) as [-> _].
      reflexivity.
    + destruct (Hr1 eq_refl) as [-> _]. destruct (Hr2 eq_refl) as [-> _].
      reflexivity.
  - injection H1 as <- _. injection H2 as <- _. reflexivity.
Qed.

(** C9.  In any state the loop can be in, an iteration in which the
    network fails returns all the same (unless it decodes a line that is
    not telemetry): the exception of the upload is caught inside
    [upload_weather] and does not reach the loop, and the state left is the
    one a successful upload leaves.  When the iteration did send the
    request, the failure was printed, [upload_timer] is back to 0 and the
    next iteration sends no request: the upload is not tried again before
    the next interval has gone by. *)
Theorem upload_failure_contained :
  forall id key s ev,
    buffers_filled s ->
    (forall e, ev = GotLine (NotTelemetry e) -> (pulse s - 1 <= 0)%Z) ->
    exists s' out,
      loop_body id key NetFails s ev = Ok (s', out) /\
      (forall html, exists out2,
         loop_body id key (Responds html) s ev = Ok (s', out2)) /\
      (existsb is_UrlOpen out = true ->
         In PrintException out /\
         upload_timer s' = 0%Z /\
         forall net ev' s'' out'',
           loop_body id key net s' ev' = Ok (s'', out'') ->
           existsb is_UrlOpen out'' = false).
Proof.
  intros id key s ev Hs Hev.
  destruct (loop_body_Ok id key NetFails s ev Hs Hev) as (s' & out & E).
  exists s', out. split; [exact E |]. split.
  - intros html.
    destruct (loop_body_Ok id key (Responds html) s ev Hs Hev) as (s2 & out2 & E2).
    exists out2. rewrite (loop_body_state_net _ _ _ _ _ _ _ _ _ _ E E2). exact E2.
  - intros Hu.
    destruct (loop_body_upload_inv _ _ _ _ _ _ _ E Hu) as (_ & Ht & Hx).
    split; [exact (Hx eq_refl) |]. split; [exact Ht |].
    intros net ev' s'' out'' E''.
    destruct (existsb is_UrlOpen out'') eqn:Hu''; [| reflexivity].
    destruct (loop_body_upload_inv _ _ _ _ _ _ _ E'' Hu'') as (C & _ & _).
    rewrite Ht in C. vm_compute in C. discriminate C.
Qed.

Lemma upload_failure_contained_witness :
  exists s' out,
    loop_body "ID" "KEY" NetFails awaiting_wind_speed_late
      (GotLine (Telemetry (only_wind_speed 3))) = Ok (s', out) /\
    In PrintException out /\ upload_timer s' = 0%Z.
Proof.
  destruct (upload_failure_contained "ID" "KEY" awaiting_wind_speed_late
              (GotLine (Telemetry (only_wind_speed 3))))
    as (s' & out & E & _ & H).
  - unfold buffers_filled. simpl. repeat split; intros; try discriminate.
    exists 10. reflexivity.
  - intros e C. discriminate C.
  - exists s', out. split; [exact E |].
    assert (Hu : existsb is_UrlOpen out = true).
    { assert (E' : exists o, loop_body "ID" "KEY" NetFails awaiting_wind_speed_late
                     (GotLine (Telemetry (only_wind_speed 3))) = Ok (flush awaiting_wind_speed_late, o)
                   /\ existsb is_UrlOpen o = true)
        by (eexists; split; vm_compute; reflexivity).
      destruct E' as (o & E' & Ho). rewrite E in E'. injection E' as _ ->. exact Ho. }
    destruct (H Hu) as (Hx & Ht & _). split; [exact Hx | exact Ht].
Defined.

(** ** The history along a run of the loop *)

Lemma loop_body_tempTrack (id key : string) (net : net_outcome)
    (s s' : LoopState) (ev : event) (out : list effect) :
  loop_body id key net s ev = Ok (s', out) ->
  (length (tempTrack s) <= 5)%nat -> (length (tempTrack s') <= 5)%nat.
Proof.
  rewrite loop_body_unfold. intros H Hl.
  apply bind_Ok_inv in H as ([s1 o1] & E & H).
  assert (Hl1 : (length (tempTrack s1) <= 5)%nat).
  { unfold receive in E. destruct ev as [| l].
    - injection E as <- _. exact Hl.
    - simpl pulse in E. destruct (0 <? pulse s - 1)%Z.
      + apply bind_Ok_inv in E as (df & _ & E).
        apply ingest_effect in E as (_ & _ & _ & _ & Hk). rewrite Hk.
        destruct (temperature_C df); [apply push_tempTrack_length |]; exact Hl.
      + injection E as <- _. exact Hl. }
  destruct (isComplete s1).
  - apply bind_Ok_inv in H as ([s2 o2] & E' & H). injection H as <- _.
    apply deliver_inv in E' as (d & ou & _ & _ & Hf & Hr).
    destruct (UPLOAD_INTERVAL <? upload_timer s1)%Z.
    + destruct (Hf eq_refl) as [-> _]. exact Hl1.
    + destruct (Hr eq_refl) as [-> _]. exact Hl1.
  - injection H as <- _. exact Hl1.
Qed.

(** The bound of C6 holds of every state the loop reaches. *)
Lemma run_tempTrack_at_most_five (id key : string) (evs : list (event * net_outcome)) :
  forall s s' out,
    (length (tempTrack s) <= 5)%nat ->
    run id key s evs = Ok (s', out) ->
    (length (tempTrack s') <= 5)%nat.
Proof.
  induction evs as [| [ev net] evs IH]; intros s s' out Hl H; simpl in H.
  - injection H as <- _. exact Hl.
  - apply bind_Ok_inv in H as ([s1 o1] & E & H).
    apply bind_Ok_inv in H as ([s2 o2] & E' & H). injection H as <- _.
    apply (IH s1 s2 o2); [| exact E'].
    apply (loop_body_tempTrack id key net s s1 ev o1 E Hl).
Qed.

(** * Further properties of the script *)

(** ** What holds between two iterations *)

(** X1.  In every state the loop reaches from its start, a tracker that is
    up has a value in its buffer (the temperature buffer then holds exactly
    one reading), and the four trackers are never up together: a completed
    cycle is consumed in the iteration that completes it. *)
Theorem reached_state_wf :
  forall id key evs s' out,
    run id key init evs = Ok (s', out) -> wf s'.
Proof.
  intros id key evs s' out H.
  apply (run_wf id key evs init s' out); [apply init_wf | exact H].
Qed.

Lemma reached_state_wf_witness :
  wf awaiting_wind_speed.
Proof.
  destruct awaiting_wind_speed_reached as [out E].
  apply (reached_state_wf "ID" "KEY" _ awaiting_wind_speed out E).
Defined.

(** ** How the loop can end *)

Lemma loop_body_Ok_or_line (id key : string) (net : net_outcome)
    (s : LoopState) (ev : event) :
  buffers_filled s ->
  (exists s' out, loop_body id key net s ev = Ok (s', out)) \/
  (exists e, ev = GotLine (NotTelemetry e) /\ (0 < pulse s - 1)%Z /\
             loop_body id key net s ev = Raise e).
Proof.
  intros Hs.
  destruct ev as [| [e | df]].
  - left. apply loop_body_Ok; [exact Hs | intros e C; discriminate C].
  - destruct (Z.ltb_spec 0 (pulse s - 1)) as [Hp | Hp].
    + right. exists e. split; [reflexivity |]. split; [exact Hp |].
      rewrite loop_body_unfold. unfold receive. simpl pulse.
      apply Z.ltb_lt in Hp. rewrite Hp. reflexivity.
    + left. apply loop_body_Ok; [exact Hs |].
      intros e' _. exact Hp.
  - left. apply loop_body_Ok; [exact Hs | intros e C; discriminate C].
Qed.

Lemma run_Ok_or_line (id key : string) (evs : list (event * net_outcome)) :
  forall s, wf s ->
  (exists s' out, run id key s evs = Ok (s', out)) \/
  (exists e net, run id key s evs = Raise e /\
                 In (GotLine (NotTelemetry e), net) evs).
Proof.
  induction evs as [| [ev net] evs IH]; intros s Hs.
  - left. simpl. eauto.
  - simpl run.
    destruct (loop_body_Ok_or_line id key net s ev (proj1 Hs))
      as [(s1 & o1 & E) | (e & -> & _ & E)].
    + rewrite E. cbn [bind].
      destruct (IH s1 (loop_body_wf id key net s s1 ev o1 Hs E))
        as [(s2 & o2 & E') | (e & net' & E' & Hin)].
      * left. rewrite E'. cbn [bind]. eauto.
      * right. exists e, net'. rewrite E'. split; [reflexivity |].
        right. exact Hin.
    + right. exists e, net. rewrite E. split; [reflexivity |].
      left. reflexivity.
Qed.

(** X2.  On a queue whose lines either fail to decode or decode to records
    with numbers in their telemetry columns (the lines of type [line]; a
    line that decodes with a value of another kind in a column is not
    covered), and whatever the network does, the loop started afresh either
    goes through all the iterations, or it ends with the exception raised
    by decoding one of the lines that do not decode.  On such lines nothing
    else in an iteration raises: the reductions never meet an empty wind
    buffer, [tempC[-1]] never meets an empty temperature buffer, and a
    failing upload is contained. *)
Theorem run_ends_only_on_undecodable_line :
  forall id key evs,
    (exists s' out, run id key init evs = Ok (s', out)) \/
    (exists e net, run id key init evs = Raise e /\
                   In (GotLine (NotTelemetry e), net) evs).
Proof.
  intros id key evs. apply run_Ok_or_line. apply init_wf.
Qed.

(** ** Lines met while [pulse] is low, and timeouts *)

(** One line met with [pulse] at most 1 is not decoded. *)
Lemma gated_line_skipped (id key : string) (net : net_outcome)
    (s : LoopState) (l : line) :
  isComplete s = false -> (pulse s <= 1)%Z ->
  loop_body id key net s (GotLine l) = Ok (set_pulse (tick s) (pulse s - 1), []).
Proof.
  intros Hc Hp. rewrite loop_body_unfold. unfold receive. simpl pulse.
  assert (E : (0 <? pulse s - 1)%Z = false) by (apply Z.ltb_ge; lia).
  rewrite E. cbn [bind].
  change (isComplete (set_pulse (tick s) (pulse s - 1))) with (isComplete s).
  rewrite Hc. reflexivity.
Qed.

(** X4.  While [pulse] is at most 1, lines that follow one another without
    a timeout in between are all dropped, valid telemetry included: the
    iterations return, print nothing, leave the buffers, the trackers and
    the temperature history as they were, and only move the counters.  In
    particular a queue that always has a line ready from the start is never
    read at all. *)
Theorem lines_dropped_while_pulse_low :
  forall id key evs s,
    isComplete s = false ->
    (pulse s <= 1)%Z ->
    forallb (fun p => is_line (fst p)) evs = true ->
    exists s',
      run id key s evs = Ok (s', []) /\
      same_accumulator s s' /\
      pulse s' = (pulse s - Z.of_nat (length evs))%Z /\
      upload_timer s' = (upload_timer s + Z.of_nat (length evs))%Z.
Proof.
  intros id key evs. induction evs as [| [ev net] evs IH]; intros s Hc Hp Hl.
  - exists s. simpl. split; [reflexivity |].
    split; [repeat split |]. split; lia.
  - simpl in Hl. apply andb_prop in Hl as [Hev Hl].
    destruct ev as [| l]; [discriminate Hev |].
    destruct (IH (set_pulse (tick s) (pulse s - 1)) Hc
                ltac:(simpl; lia) Hl) as (s' & E & Ha & Hq & Ht).
    exists s'. simpl run. rewrite (gated_line_skipped id key net s l Hc Hp).
    cbn [bind]. rewrite E. cbn [bind]. split; [reflexivity |].
    split; [exact Ha |].
    simpl in Hq, Ht. rewrite Hq, Ht.
    change (length ((GotLine l, net) :: evs)) with (S (length evs)).
    split; lia.
Qed.

Lemma lines_dropped_while_pulse_low_witness :
  exists s',
    run "ID" "KEY" init
      [ (GotLine (Telemetry (only_humidity 50)), NetFails);
        (GotLine (Telemetry (only_temperature 10)), NetFails);
        (GotLine (Telemetry (only_wind_direction 45)), NetFails);
        (GotLine (Telemetry (only_wind_speed 3)), NetFails) ] = Ok (s', []) /\
    same_accumulator init s' /\
    pulse s' = (-4)%Z /\ upload_timer s' = 4%Z.
Proof.
  apply (lines_dropped_while_pulse_low "ID" "KEY"
           [ (GotLine (Telemetry (only_humidity 50)), NetFails);
             (GotLine (Telemetry (only_temperature 10)), NetFails);
             (GotLine (Telemetry (only_wind_direction 45)), NetFails);
             (GotLine (Telemetry (only_wind_speed 3)), NetFails) ] init).
  - reflexivity.
  - simpl. lia.
  - reflexivity.
Defined.

(** X5.  Between two cycles, iterations in which the queue stays empty only
    count: each prints the new value of [pulse], none displays, uploads or
    reports silence, and the buffers, the trackers and the history are
    untouched, however long the silence lasts. *)
Theorem timeouts_only_count :
  forall id key evs s,
    isComplete s = false ->
    forallb (fun p => is_timeout (fst p)) evs = true ->
    exists s',
      run id key s evs =
        Ok (s', map (fun k => PrintPulse (pulse s + Z.of_nat k)) (seq 1 (length evs))) /\
      same_accumulator s s' /\
      pulse s' = (pulse s + Z.of_nat (length evs))%Z /\
      upload_timer s' = (upload_timer s + Z.of_nat (length evs))%Z.
Proof.
  intros id key evs. induction evs as [| [ev net] evs IH]; intros s Hc Hl.
  - exists s. simpl. split; [reflexivity |].
    split; [repeat split |]. split; lia.
  - simpl in Hl. apply andb_prop in Hl as [Hev Hl].
    destruct ev as [| l]; [| discriminate Hev].
    destruct (IH (set_pulse (tick s) (pulse s + 1)) Hc Hl) as (s' & E & Ha & Hq & Ht).
    exists s'. simpl run.
    assert (E1 : loop_body id key net s Empty =
                 Ok (set_pulse (tick s) (pulse s + 1), [PrintPulse (pulse s + 1)])).
    { rewrite loop_body_unfold. unfold receive. cbn [bind].
      change (isComplete (set_pulse (tick s) (pulse (tick s) + 1))) with (isComplete s).
      rewrite Hc. reflexivity. }
    rewrite E1. cbn [bind]. rewrite E. cbn [bind].
    split.
    + change (length ((Empty, net) :: evs)) with (S (length evs)).
      cbn [seq map app]. f_equal. f_equal. f_equal.
      rewrite <- (seq_shift (length evs) 1), map_map. apply map_ext.
      intros k. simpl pulse. f_equal. lia.
    + split; [exact Ha |].
      simpl in Hq, Ht. rewrite Hq, Ht.
      change (length ((Empty, net) :: evs)) with (S (length evs)).
      split; lia.
Qed.

Lemma timeouts_only_count_witness :
  exists s',
    run "ID" "KEY" awaiting_wind_speed [(Empty, NetFails); (Empty, NetFails)] =
      Ok (s', [PrintPulse 6; PrintPulse 7]) /\
    same_accumulator awaiting_wind_speed s' /\
    pulse s' = 7%Z /\ upload_timer s' = 13%Z.
Proof.
  apply (timeouts_only_count "ID" "KEY" [(Empty, NetFails); (Empty, NetFails)]
           awaiting_wind_speed).
  - reflexivity.
  - reflexivity.
Defined.

(** ** When the loop uploads *)

(** An iteration counted at or below [UPLOAD_INTERVAL] sends nothing and
    leaves the count. *)
Lemma loop_body_before_interval (id key : string) (net : net_outcome)
    (s s' : LoopState) (ev : event) (out : list effect) :
  (upload_timer s + 1 <= UPLOAD_INTERVAL)%Z ->
  loop_body id key net s ev = Ok (s', out) ->
  existsb is_UrlOpen out = false /\ upload_timer s' = (upload_timer s + 1)%Z.
Proof.
  intros Hle H. split.
  - destruct (existsb is_UrlOpen out) eqn:Hu; [| reflexivity].
    destruct (loop_body_upload_inv id key net s s' ev out H Hu) as (C & _). lia.
  - rewrite loop_body_unfold in H.
    apply bind_Ok_inv in H as ([s1 o1] & E & H).
    destruct (receive_frame _ _ _ _ E) as (Ht & _). simpl in Ht.
    destruct (isComplete s1).
    + apply bind_Ok_inv in H as ([s2 o2] & E' & H). injection H as <- _.
      apply deliver_inv in E' as (d & ou & _ & _ & _ & Hr).
      assert (B : (UPLOAD_INTERVAL <? upload_timer s1)%Z = false)
        by (apply Z.ltb_ge; lia).
      destruct (Hr B) as [-> _]. exact Ht.
    + injection H as <- _. exact Ht.
Qed.

(** X3.  The upload is rate limited by iterations: as long as the count of
    iterations since the last clearing has not passed [UPLOAD_INTERVAL], no
    request is sent, whatever arrives and however many cycles complete, and
    [upload_timer] counts every iteration, timeouts included. *)
Theorem no_upload_before_interval :
  forall id key evs s s' out,
    (upload_timer s + Z.of_nat (length evs) <= UPLOAD_INTERVAL)%Z ->
    run id key s evs = Ok (s', out) ->
    existsb is_UrlOpen out = false /\
    upload_timer s' = (upload_timer s + Z.of_nat (length evs))%Z.
Proof.
  intros id key evs. induction evs as [| [ev net] evs IH]; intros s s' out Hle H.
  - simpl in H. injection H as <- <-. simpl. split; [reflexivity | lia].
  - change (length ((ev, net) :: evs)) with (S (length evs)) in *.
    simpl in H.
    apply bind_Ok_inv in H as ([s1 o1] & E & H).
    apply bind_Ok_inv in H as ([s2 o2] & E' & H). injection H as <- <-.
    destruct (loop_body_before_interval id key net s s1 ev o1 ltac:(lia) E)
      as [Ho1 Ht1].
    destruct (IH s1 s2 o2 ltac:(lia) E') as [Ho2 Ht2].
    rewrite existsb_app, Ho1, Ho2. split; [reflexivity | lia].
Qed.

Lemma no_upload_before_interval_witness :
  exists s' out,
    run "ID" "KEY" awaiting_wind_speed
      [ (GotLine (Telemetry (only_wind_speed 3)), NetFails); (Empty, NetFails) ]
      = Ok (s', out) /\
    existsb is_UrlOpen out = false /\ upload_timer s' = 13%Z.
Proof.
  assert (E : exists s' out,
            run "ID" "KEY" awaiting_wind_speed
              [ (GotLine (Telemetry (only_wind_speed 3)), NetFails); (Empty, NetFails) ]
            = Ok (s', out))
    by (eexists; eexists; vm_compute; reflexivity).
  destruct E as (s' & out & E). exists s', out. split; [exact E |].
  destruct (no_upload_before_interval "ID" "KEY"
              [ (GotLine (Telemetry (only_wind_speed 3)), NetFails); (Empty, NetFails) ]
              awaiting_wind_speed s' out) as [Ho Ht];
    [vm_compute; discriminate | exact E |].
  split; [exact Ho | exact Ht].
Defined.

(** What an iteration that sends a request leaves. *)
Lemma loop_body_upload_state (id key : string) (net : net_outcome)
    (s s' : LoopState) (ev : event) (out : list effect) :
  loop_body id key net s ev = Ok (s', out) ->
  existsb is_UrlOpen out = true ->
  exists s1, s' = flush s1.
Proof.
  rewrite loop_body_unfold. intros H Hu.
  apply bind_Ok_inv in H as ([s1 o1] & E & H).
  destruct (receive_frame _ _ _ _ E) as (_ & _ & Ho1).
  destruct (isComplete s1).
  - apply bind_Ok_inv in H as ([s2 o2] & E' & H). injection H as <- <-.
    apply deliver_inv in E' as (d & ou & _ & -> & Hf & Hr).
    destruct (UPLOAD_INTERVAL <? upload_timer s1)%Z.
    + destruct (Hf eq_refl) as [-> _]. exists s1. reflexivity.
    + destruct (Hr eq_refl) as [_ ->].
      rewrite existsb_app, Ho1 in Hu. simpl in Hu.
      rewrite existsb_app in Hu.
      destruct (pulse_timeout <? pulse s1)%Z; discriminate Hu.
  - injection H as _ <-. rewrite Ho1 in Hu. discriminate Hu.
Qed.

(** X15.  The clearing that follows an upload puts [pulse] back to 0, so
    the line that comes right after an upload is never decoded, valid
    telemetry or not: the next iteration, if it gets a line, returns with
    nothing printed, the buffers still empty, the trackers down and [pulse]
    at -1. *)
Theorem line_after_upload_dropped :
  forall id key net s ev s' out,
    loop_body id key net s ev = Ok (s', out) ->
    existsb is_UrlOpen out = true ->
    forall net' l,
    exists s'',
      loop_body id key net' s' (GotLine l) = Ok (s'', []) /\
      buffers_empty s'' /\ trackers_down s'' /\
      tempTrack s'' = tempTrack s' /\
      pulse s'' = (-1)%Z /\ upload_timer s'' = 1%Z.
Proof.
  intros id key net s ev s' out H Hu net' l.
  destruct (loop_body_upload_state id key net s s' ev out H Hu) as [s1 ->].
  exists (set_pulse (tick (flush s1)) (pulse (flush s1) - 1)).
  split.
  - apply gated_line_skipped; [reflexivity | simpl; lia].
  - repeat split.
Qed.

Lemma line_after_upload_dropped_witness :
  exists s' out s'',
    loop_body "ID" "KEY" NetFails awaiting_wind_speed_late
      (GotLine (Telemetry (only_wind_speed 3))) = Ok (s', out) /\
    loop_body "ID" "KEY" NetFails s' (GotLine (Telemetry (only_humidity 50)))
      = Ok (s'', []) /\
    buffers_empty s'' /\ pulse s'' = (-1)%Z.
Proof.
  assert (E : exists out,
            loop_body "ID" "KEY" NetFails awaiting_wind_speed_late
              (GotLine (Telemetry (only_wind_speed 3)))
            = Ok (flush awaiting_wind_speed_late, out) /\
            existsb is_UrlOpen out = true)
    by (eexists; split; vm_compute; reflexivity).
  destruct E as (out & E & Hu).
  destruct (line_after_upload_dropped "ID" "KEY" NetFails awaiting_wind_speed_late _ _ _
              E Hu NetFails (Telemetry (only_humidity 50)))
    as (s'' & E' & Hb & _ & _ & Hp & _).
  exists (flush awaiting_wind_speed_late), out, s''.
  split; [exact E |]. split; [exact E' |]. split; [exact Hb | exact Hp].
Defined.

(** ** A channel that never reports *)

Lemma ingest_tracker_stays_down (c : channel) (s s' : LoopState) (df : RawRecord)
    (out : list effect) :
  tracker c s = false -> column c df = None ->
  ingest s df = Ok (s', out) ->
  tracker c s' = false /\ existsb is_report out = false.
Proof.
  intros Ht Hc H. split.
  - apply ingest_effect in H as (Hh & Hd & Hs & Htt & _).
    unfold observed in Hh, Hd, Hs. simpl in Hh, Hd, Hs.
    destruct c; simpl in Ht, Hc |- *.
    + rewrite Hh, Ht, Hc. reflexivity.
    + rewrite Htt, Hc. exact Ht.
    + rewrite Hd, Ht, Hc. reflexivity.
    + rewrite Hs, Ht, Hc. reflexivity.
  - rewrite ingest_unfold in H. destruct (temperature_C df) as [v |].
    + destruct (ingest_temperature_Ok (ingest_columns s df) v) as [r [_ E]].
      rewrite E in H. injection H as _ <-. reflexivity.
    + injection H as _ <-. reflexivity.
Qed.

Lemma isComplete_tracker (c : channel) (s : LoopState) :
  tracker c s = false -> isComplete s = false.
Proof.
  unfold isComplete. destruct c; simpl; intros ->;
    rewrite ?andb_false_r; reflexivity.
Qed.

Lemma loop_body_tracker_stays_down (id key : string) (net : net_outcome)
    (c : channel) (s s' : LoopState) (ev : event) (out : list effect) :
  tracker c s = false -> carries c ev = false ->
  loop_body id key net s ev = Ok (s', out) ->
  tracker c s' = false /\ existsb is_report out = false.
Proof.
  intros Ht Hc H. rewrite loop_body_unfold in H.
  apply bind_Ok_inv in H as ([s1 o1] & E & H).
  assert (H1 : tracker c s1 = false /\ existsb is_report o1 = false).
  { unfold receive in E. destruct ev as [| l].
    - injection E as <- <-. split; [destruct c; exact Ht | reflexivity].
    - simpl pulse in E. destruct (0 <? pulse s - 1)%Z.
      + apply bind_Ok_inv in E as (df & Hdf & E).
        destruct l as [e | df']; [discriminate Hdf |].
        injection Hdf as ->. simpl in Hc.
        apply (ingest_tracker_stays_down c (set_pulse (tick s) (pulse s - 1)) s1 df o1);
          [destruct c; exact Ht | | exact E].
        destruct (column c df); [discriminate Hc | reflexivity].
      + injection E as <- <-. split; [destruct c; exact Ht | reflexivity]. }
  destruct H1 as [Ht1 Ho1].
  rewrite (isComplete_tracker c s1 Ht1) in H. injection H as <- <-.
  split; [exact Ht1 | exact Ho1].
Qed.

(** X6.  If one of the four channels never reports, the station never
    displays and never uploads: from a state whose tracker for the channel
    is down, a run in which no record carries the channel's column reports
    nothing, however long it lasts and whatever the other channels send (no
    timeout completes a cycle for it). *)
Theorem silent_channel_blocks_reports :
  forall id key c evs s s' out,
    tracker c s = false ->
    forallb (fun p => negb (carries c (fst p))) evs = true ->
    run id key s evs = Ok (s', out) ->
    existsb is_report out = false /\ tracker c s' = false.
Proof.
  intros id key c evs. induction evs as [| [ev net] evs IH]; intros s s' out Ht Hc H.
  - simpl in H. injection H as <- <-. split; [reflexivity | exact Ht].
  - simpl in Hc. apply andb_prop in Hc as [Hev Hc].
    apply negb_true_iff in Hev. simpl in H.
    apply bind_Ok_inv in H as ([s1 o1] & E & H).
    apply bind_Ok_inv in H as ([s2 o2] & E' & H). injection H as <- <-.
    destruct (loop_body_tracker_stays_down id key net c s s1 ev o1 Ht Hev E)
      as [Ht1 Ho1].
    destruct (IH s1 s2 o2 Ht1 Hc E') as [Ho2 Ht2].
    rewrite existsb_app, Ho1, Ho2. split; [reflexivity | exact Ht2].
Qed.

Lemma silent_channel_blocks_reports_witness :
  exists s' out,
    run "ID" "KEY" awaiting_wind_speed
      [ (GotLine (Telemetry (only_humidity 51)), NetFails);
        (Empty, NetFails);
        (GotLine (Telemetry (only_temperature 11)), NetFails) ] = Ok (s', out) /\
    existsb is_report out = false /\ have_ws s' = false.
Proof.
  assert (E : exists s' out,
            run "ID" "KEY" awaiting_wind_speed
              [ (GotLine (Telemetry (only_humidity 51)), NetFails);
                (Empty, NetFails);
                (GotLine (Telemetry (only_temperature 11)), NetFails) ] = Ok (s', out))
    by (eexists; eexists; vm_compute; reflexivity).
  destruct E as (s' & out & E). exists s', out. split; [exact E |].
  apply (silent_channel_blocks_reports "ID" "KEY" WindSpeed
           [ (GotLine (Telemetry (only_humidity 51)), NetFails);
             (Empty, NetFails);
             (GotLine (Telemetry (only_temperature 11)), NetFails) ]
           awaiting_wind_speed s' out);
    [reflexivity | reflexivity | exact E].
Defined.

(** ** The temperature history and the estimate *)

(** X7.  The history grows by one reading until it holds five.  From then
    on a new reading does not evict one old reading but two: the trimming
    keeps the last three old readings and the new one, so the history drops
    to four entries (and is back at five after the next reading).  In every
    case the new reading is the last entry. *)
Theorem push_tempTrack_trims_to_four :
  forall track v,
    length (push_tempTrack track v) =
      (if (length track <? 5)%nat then S (length track) else 4%nat) /\
    push_tempTrack track v =
      (if (length track <? 5)%nat then track else last3 track) ++ [v].
Proof.
  intros track v. rewrite push_tempTrack_snoc.
  destruct (Nat.ltb_spec (length track) 5) as [H | H].
  - assert (E : (5 <=? length track)%nat = false) by (apply Nat.leb_gt; lia).
    rewrite E. rewrite length_app. simpl. split; [lia | reflexivity].
  - assert (E : (5 <=? length track)%nat = true) by (apply Nat.leb_le; lia).
    rewrite E. rewrite length_app, length_skipn. simpl.
    split; [lia | reflexivity].
Qed.

Lemma last3_short (l : list float) : (length l <= 3)%nat -> last3 l = l.
Proof.
  intros H. unfold last3.
  replace (length l - 3)%nat with 0%nat by lia. reflexivity.
Qed.

Lemma last3_length (l : list float) : (3 <= length l)%nat -> length (last3 l) = 3%nat.
Proof. intros H. unfold last3. rewrite length_skipn. lia. Qed.

Lemma last3_snoc (l : list float) (v : float) : last3 (l ++ [v]) = last2 l ++ [v].
Proof.
  unfold last3, last2. rewrite length_app, skipn_app. simpl length.
  replace (length l + 1 - 3)%nat with (length l - 2)%nat by lia.
  replace (length l - 2 - length l)%nat with 0%nat by lia.
  reflexivity.
Qed.

(** The estimate is taken over the last three entries only. *)
Lemma streamRoll_last3 (l : list float) :
  (3 <= length l)%nat -> streamRoll l = streamRoll (last3 l).
Proof.
  intros H. unfold streamRoll.
  assert (E1 : (length l <? 3)%nat = false) by (apply Nat.ltb_ge; exact H).
  assert (E2 : (length (last3 l) <? 3)%nat = false)
    by (apply Nat.ltb_ge; rewrite last3_length; [lia | exact H]).
  rewrite E1, E2.
  rewrite (last3_short (last3 l)) by (rewrite last3_length; [lia | exact H]).
  rewrite (index_last_last3 l H). reflexivity.
Qed.

(** The estimate on a history to which [v] was added is the estimate on the
    last two entries followed by [v]. *)
Lemma streamRoll_snoc (l : list float) (v : float) :
  streamRoll (l ++ [v]) = streamRoll (last2 l ++ [v]).
Proof.
  destruct (Nat.ltb_spec (length l) 2) as [H | H].
  - unfold last2. replace (length l - 2)%nat with 0%nat by lia. reflexivity.
  - rewrite streamRoll_last3 by (rewrite length_app; simpl; lia).
    rewrite last3_snoc. reflexivity.
Qed.

Lemma last2_last3 (l : list float) : (3 <= length l)%nat -> last2 (last3 l) = last2 l.
Proof.
  intros H. unfold last2 at 1. rewrite (last3_length l H).
  unfold last3, last2. rewrite skipn_skipn. f_equal. lia.
Qed.

Lemma streamRoll_push (track : list float) (v : float) :
  streamRoll (push_tempTrack track v) = streamRoll (last2 track ++ [v]).
Proof.
  rewrite push_tempTrack_snoc.
  destruct (Nat.leb_spec 5 (length track)) as [H | H].
  - change (skipn (length track - 3) track) with (last3 track).
    rewrite streamRoll_snoc. rewrite last2_last3 by lia. reflexivity.
  - apply streamRoll_snoc.
Qed.

Lemma last2_short (l : list float) : (length l <= 2)%nat -> last2 l = l.
Proof.
  intros H. unfold last2.
  replace (length l - 2)%nat with 0%nat by lia. reflexivity.
Qed.

Lemma last2_length_le (l : list float) : (length (last2 l) <= 2)%nat.
Proof. unfold last2. rewrite length_skipn. lia. Qed.

(** X8.  The verdict on a temperature reading depends only on the reading
    and on the two readings before it: the older entries of the history,
    and the trimming of the history, have no part in it. *)
Theorem accepted_depends_on_last_two :
  forall track v,
    accepted track v = accepted (last2 track) v /\
    streamRoll (push_tempTrack track v) = streamRoll (last2 track ++ [v]).
Proof.
  intros track v. split; [| apply streamRoll_push].
  unfold accepted. rewrite !streamRoll_push.
  rewrite (last2_short (last2 track)) by apply last2_length_le.
  reflexivity.
Qed.

(** ** A reading that is not a number *)

Lemma Prim2SF_nan : Prim2SF PrimFloat.nan = S754_nan.
Proof. vm_compute. reflexivity. Qed.

Lemma add_nan_l (x : float) : PrimFloat.nan + x = PrimFloat.nan.
Proof. apply Prim2SF_inj. rewrite add_spec, Prim2SF_nan. reflexivity. Qed.

Lemma add_nan_r (x : float) : x + PrimFloat.nan = PrimFloat.nan.
Proof.
  apply Prim2SF_inj. rewrite add_spec, Prim2SF_nan.
  destruct (Prim2SF x); reflexivity.
Qed.

Lemma sub_nan_r (x : float) : x - PrimFloat.nan = PrimFloat.nan.
Proof.
  apply Prim2SF_inj. rewrite sub_spec, Prim2SF_nan.
  destruct (Prim2SF x); reflexivity.
Qed.

Lemma div_nan_l (x : float) : PrimFloat.nan / x = PrimFloat.nan.
Proof. apply Prim2SF_inj. rewrite div_spec, Prim2SF_nan. reflexivity. Qed.

Lemma ltb_nan_r (x : float) : PrimFloat.ltb x PrimFloat.nan = false.
Proof. rewrite ltb_spec, Prim2SF_nan. destruct (Prim2SF x); reflexivity. Qed.

Lemma fold_add_from_nan (l : list float) :
  fold_left PrimFloat.add l PrimFloat.nan = PrimFloat.nan.
Proof.
  induction l as [| x l IH]; [reflexivity |].
  simpl. rewrite add_nan_l. exact IH.
Qed.

Lemma fold_add_nan (l : list float) :
  forall a, In PrimFloat.nan l -> fold_left PrimFloat.add l a = PrimFloat.nan.
Proof.
  induction l as [| x l IH]; intros a H; [destruct H |].
  simpl. destruct H as [-> | H].
  - rewrite add_nan_r. apply fold_add_from_nan.
  - apply IH. exact H.
Qed.

Lemma np_mean_nan (l : list float) : In PrimFloat.nan l -> np_mean l = PrimFloat.nan.
Proof.
  intros H. unfold np_mean, np_sum. rewrite (fold_add_nan l 0 H). apply div_nan_l.
Qed.

(** On at most three entries, one of them not a number, the estimate is not
    a number. *)
Lemma streamRoll_nan (l : list float) (v : float) :
  (length (l ++ [v]) <= 3)%nat -> In PrimFloat.nan (l ++ [v]) ->
  streamRoll (l ++ [v]) = Ok PrimFloat.nan.
Proof.
  intros Hlen Hin. unfold streamRoll.
  rewrite (last3_short (l ++ [v]) Hlen), index_last_snoc.
  rewrite (np_mean_nan (l ++ [v]) Hin).
  destruct (length (l ++ [v]) <? 3)%nat; cbn [bind]; rewrite add_nan_l; reflexivity.
Qed.

(** X9.  The spike filter lets everything through around a reading that is
    not a number: a temperature is accepted, whatever its value, when it is
    [nan] itself or when one of the two readings before it is [nan] (the
    estimate is then [nan], and no comparison with [nan] holds). *)
Theorem nan_disables_spike_filter :
  forall track v,
    In PrimFloat.nan (last2 track ++ [v]) ->
    accepted track v = true.
Proof.
  intros track v H. unfold accepted. rewrite streamRoll_push.
  rewrite (streamRoll_nan (last2 track) v);
    [| rewrite length_app; pose proof (last2_length_le track); simpl; lia | exact H].
  rewrite sub_nan_r.
  change (PrimFloat.abs PrimFloat.nan) with PrimFloat.nan.
  rewrite ltb_nan_r. reflexivity.
Qed.

Lemma nan_disables_spike_filter_witness :
  accepted [10; 10; PrimFloat.nan; 10] 1000 = true /\
  accepted [10; 10; 10] 1000 = false.
Proof.
  split.
  - apply (nan_disables_spike_filter [10; 10; PrimFloat.nan; 10] 1000).
    simpl. auto.
  - vm_compute. reflexivity.
Defined.

(** ** What the buffers hold *)

Lemma ingest_buffers (s s' : LoopState) (df : RawRecord) (out : list effect) :
  ingest s df = Ok (s', out) ->
  hum s' = hum s ++ column_values humidity [df] /\
  windDir s' = windDir s ++ column_values wind_direction [df] /\
  windSpeed s' = windSpeed s ++ column_values wind_speed_ms [df] /\
  tempC s' = match temperature_C df with
             | Some v => [v]
             | None => tempC s
             end.
Proof.
  rewrite ingest_unfold. intros H.
  assert (Hc : hum (ingest_columns s df) = hum s ++ column_values humidity [df] /\
               windDir (ingest_columns s df) =
                 windDir s ++ column_values wind_direction [df] /\
               windSpeed (ingest_columns s df) =
                 windSpeed s ++ column_values wind_speed_ms [df] /\
               tempC (ingest_columns s df) = tempC s).
  { unfold ingest_columns, column_values. simpl.
    destruct (humidity df), (wind_direction df), (wind_speed_ms df); simpl;
      rewrite ?app_nil_r; auto. }
  destruct Hc as (Hh & Hd & Hs & Ht).
  destruct (temperature_C df) as [v |].
  - destruct (ingest_temperature_Ok (ingest_columns s df) v) as [r [_ E]].
    rewrite E in H. injection H as <- _. simpl. auto.
  - injection H as <- _. auto.
Qed.

Lemma column_values_cons (col : RawRecord -> option float) (df : RawRecord)
    (dfs : list RawRecord) :
  column_values col (df :: dfs) = column_values col [df] ++ column_values col dfs.
Proof. unfold column_values. simpl. rewrite app_nil_r. reflexivity. Qed.

(** X10.  The humidity and wind buffers are append-only between two
    clearings: after any sequence of records each holds what it held
    followed by the values of its column, in the order of arrival, none
    dropped.  The temperature buffer does not accumulate: it holds the last
    temperature alone, so that the temperature displayed and uploaded is the
    latest reading, not a mean over the cycle. *)
Theorem buffers_hold_columns_in_order :
  forall (dfs : list RawRecord) (s : LoopState),
  exists s',
    ingest_all s dfs = Ok s' /\
    hum s' = hum s ++ column_values humidity dfs /\
    windDir s' = windDir s ++ column_values wind_direction dfs /\
    windSpeed s' = windSpeed s ++ column_values wind_speed_ms dfs /\
    tempC s' = match rev (column_values temperature_C dfs) with
               | [] => tempC s
               | v :: _ => [v]
               end.
Proof.
  induction dfs as [| df dfs IH]; intros s.
  - exists s. simpl. rewrite !app_nil_r. repeat split.
  - destruct (ingest_Ok s df) as (s1 & out & E).
    destruct (ingest_buffers _ _ _ _ E) as (Hh & Hd & Hs & Ht).
    destruct (IH s1) as (s' & E' & Hh' & Hd' & Hs' & Ht').
    exists s'. simpl ingest_all. rewrite E. cbn [bind]. split; [exact E' |].
    rewrite !(column_values_cons _ df dfs), !app_assoc, <- Hh, <- Hd, <- Hs.
    split; [exact Hh' |]. split; [exact Hd' |]. split; [exact Hs' |].
    rewrite Ht'. rewrite rev_app_distr.
    destruct (rev (column_values temperature_C dfs)) as [| w ws]; [| reflexivity].
    rewrite Ht. unfold column_values. simpl.
    destruct (temperature_C df); reflexivity.
Qed.

(** ** What a request carries *)

Lemma weather_data_inv (id key : string) (c h wd ws : list float)
    (wdata : list (string * pyval)) :
  weather_data id key c h wd ws = Ok wdata ->
  map fst wdata =
    [ "action"; "ID"; "PASSWORD"; "dateutc"; "tempf"; "dewPtF"; "humidity";
      "winddir_avg2m"; "windspdmph_avg2m"; "windspeedmph"; "winddir";
      "windgustmph"; "windgustdir" ]%string /\
  dict_get "action" wdata = Some (PyStr "updateraw") /\
  dict_get "ID" wdata = Some (PyStr id) /\
  dict_get "PASSWORD" wdata = Some (PyStr key) /\
  dict_get "winddir_avg2m" wdata = Some PyNone /\
  dict_get "winddir" wdata = Some PyNone /\
  dict_get "windgustdir" wdata = Some PyNone.
Proof.
  unfold weather_data. intros H.
  apply bind_Ok_inv in H as (x1 & _ & H).
  apply bind_Ok_inv in H as (x2 & _ & H).
  apply bind_Ok_inv in H as (x3 & _ & H).
  injection H as <-. repeat split.
Qed.

Lemma loop_body_requests (id key : string) (net : net_outcome)
    (s s' : LoopState) (ev : event) (out : list effect)
    (u : string) (w : list (string * pyval)) :
  loop_body id key net s ev = Ok (s', out) ->
  In (UrlOpen u w) out ->
  u = WU_URL /\ exists c h wd ws, weather_data id key c h wd ws = Ok w.
Proof.
  rewrite loop_body_unfold. intros H Hin.
  apply bind_Ok_inv in H as ([s1 o1] & E & H).
  assert (Ho1 : ~ In (UrlOpen u w) o1).
  { destruct (receive_frame _ _ _ _ E) as (_ & _ & Ho1). intros C.
    assert (X : existsb is_UrlOpen o1 = true)
      by (apply existsb_exists; exists (UrlOpen u w); split; [exact C | reflexivity]).
    rewrite Ho1 in X. discriminate X. }
  destruct (isComplete s1).
  - apply bind_Ok_inv in H as ([s2 o2] & E' & H). injection H as _ <-.
    apply in_app_or in Hin as [Hin | Hin]; [contradiction |].
    apply deliver_inv in E' as (d & ou & _ & -> & Hf & Hr).
    destruct Hin as [C | Hin]; [discriminate C |].
    apply in_app_or in Hin as [Hin | Hin].
    { destruct (pulse_timeout <? pulse s1)%Z; simpl in Hin;
        [destruct Hin as [C | []]; discriminate C | destruct Hin]. }
    destruct (UPLOAD_INTERVAL <? upload_timer s1)%Z.
    + destruct (Hf eq_refl) as [_ (t & _ & Hup)].
      unfold upload_weather in Hup.
      apply bind_Ok_inv in Hup as (wd0 & Hw & Hup). injection Hup as <-.
      simpl in Hin. destruct Hin as [C | [C | Hin]]; [discriminate C | |].
      * injection C as <- <-. split; [reflexivity |]. eauto.
      * destruct net; simpl in Hin; destruct Hin as [C | []]; discriminate C.
    + destruct (Hr eq_refl) as [_ ->]. destruct Hin.
  - injection H as _ <-. contradiction.
Qed.

(** X11.  Every request the loop sends, in any run from any state, goes to
    [WU_URL] with the thirteen fields of the protocol in their order, the
    action [updateraw] and the station's credentials, and carries [None] in
    each of the three wind direction fields: the station never uploads a
    wind direction. *)
Theorem requests_carry_no_wind_direction :
  forall id key evs s s' out u w,
    run id key s evs = Ok (s', out) ->
    In (UrlOpen u w) out ->
    u = WU_URL /\
    map fst w =
      [ "action"; "ID"; "PASSWORD"; "dateutc"; "tempf"; "dewPtF"; "humidity";
        "winddir_avg2m"; "windspdmph_avg2m"; "windspeedmph"; "winddir";
        "windgustmph"; "windgustdir" ]%string /\
    dict_get "action" w = Some (PyStr "updateraw") /\
    dict_get "ID" w = Some (PyStr id) /\
    dict_get "PASSWORD" w = Some (PyStr key) /\
    dict_get "winddir_avg2m" w = Some PyNone /\
    dict_get "winddir" w = Some PyNone /\
    dict_get "windgustdir" w = Some PyNone.
Proof.
  intros id key evs. induction evs as [| [ev net] evs IH]; intros s s' out u w H Hin.
  - simpl in H. injection H as _ <-. destruct Hin.
  - simpl in H.
    apply bind_Ok_inv in H as ([s1 o1] & E & H).
    apply bind_Ok_inv in H as ([s2 o2] & E' & H). injection H as _ <-.
    apply in_app_or in Hin as [Hin | Hin].
    + destruct (loop_body_requests id key net s s1 ev o1 u w E Hin)
        as (-> & c & h & wd & ws & Hw).
      split; [reflexivity |]. apply (weather_data_inv id key c h wd ws w Hw).
    + apply (IH s1 s2 o2 u w E' Hin).
Qed.

Lemma requests_carry_no_wind_direction_witness :
  exists s' out w,
    run "ID" "KEY" awaiting_wind_speed_late
      [ (GotLine (Telemetry (only_wind_speed 3)), NetFails) ] = Ok (s', out) /\
    In (UrlOpen WU_URL w) out /\
    dict_get "ID" w = Some (PyStr "ID") /\
    dict_get "winddir" w = Some PyNone.
Proof.
  assert (E : exists s' out w,
            run "ID" "KEY" awaiting_wind_speed_late
              [ (GotLine (Telemetry (only_wind_speed 3)), NetFails) ] = Ok (s', out) /\
            In (UrlOpen WU_URL w) out).
  { eexists. eexists. eexists. split; [vm_compute; reflexivity |].
    right. right. left. reflexivity. }
  destruct E as (s' & out & w & E & Hin). exists s', out, w.
  split; [exact E |]. split; [exact Hin |].
  destruct (requests_carry_no_wind_direction "ID" "KEY"
              [ (GotLine (Telemetry (only_wind_speed 3)), NetFails) ]
              awaiting_wind_speed_late s' out WU_URL w E Hin)
    as (_ & _ & _ & Hid & _ & _ & Hwd & _).
  split; [exact Hid | exact Hwd].
Defined.

(** ** Empty buffers in [display_data] and [upload_weather] *)

(** X12.  [display_data] and [upload_weather] raise [ValueError] exactly
    when the wind direction or the wind speed buffer is empty, whatever the
    temperature and humidity buffers hold (an empty one only gives [nan]).
    In [upload_weather] the exception comes from building the dictionary,
    before the [try], so the bare [except] does not contain it, whatever the
    network does. *)
Theorem reports_raise_on_empty_wind_buffers :
  forall net id key c h wd ws,
    match wd, ws with
    | _ :: _, _ :: _ =>
        (exists d, display_data h c wd ws = Ok d) /\
        (exists wdata,
           upload_weather net id key c h wd ws =
             Ok ([PrintUploading; UrlOpen WU_URL wdata] ++
                 match net with
                 | Responds html => [PrintServerResponse html]
                 | NetFails => [PrintException]
                 end))
    | _, _ =>
        display_data h c wd ws = Raise ValueError /\
        upload_weather net id key c h wd ws = Raise ValueError
    end.
Proof.
  intros net id key c h wd ws.
  destruct wd as [| d0 ds], ws as [| w0 wt].
  - split; reflexivity.
  - split; reflexivity.
  - split; reflexivity.
  - split.
    + unfold display_data. simpl. eauto.
    + unfold upload_weather, weather_data. simpl. eauto.
Qed.

(** ** What [display_data] shows of the wind *)

Lemma np_maximum_cases (a b : float) : np_maximum a b = a \/ np_maximum a b = b.
Proof.
  unfold np_maximum.
  destruct (PrimFloat.is_nan a); [left; reflexivity |].
  destruct (PrimFloat.is_nan b); [right; reflexivity |].
  destruct (PrimFloat.ltb a b); [right | left]; reflexivity.
Qed.

Lemma np_maximum_is_nan (a b : float) :
  PrimFloat.is_nan (np_maximum a b) = PrimFloat.is_nan a || PrimFloat.is_nan b.
Proof.
  unfold np_maximum.
  destruct (PrimFloat.is_nan a) eqn:Ea; [rewrite Ea; reflexivity |].
  destruct (PrimFloat.is_nan b) eqn:Eb; [rewrite Eb; reflexivity |].
  destruct (PrimFloat.ltb a b); [rewrite Eb | rewrite Ea]; reflexivity.
Qed.

Lemma fold_np_maximum_In (l : list float) :
  forall a, In (fold_left np_maximum l a) (a :: l).
Proof.
  induction l as [| x l IH]; intros a; simpl.
  - left. reflexivity.
  - destruct (IH (np_maximum a x)) as [H | H].
    + destruct (np_maximum_cases a x) as [E | E].
      * left. rewrite <- H. symmetry. exact E.
      * right. left. rewrite <- H. symmetry. exact E.
    + right. right. exact H.
Qed.

Lemma fold_np_maximum_is_nan (l : list float) :
  forall a,
    PrimFloat.is_nan (fold_left np_maximum l a) =
    PrimFloat.is_nan a || existsb PrimFloat.is_nan l.
Proof.
  induction l as [| x l IH]; intros a; simpl.
  - rewrite orb_false_r. reflexivity.
  - rewrite IH, np_maximum_is_nan, orb_assoc. reflexivity.
Qed.

Lemma np_max_In (l : list float) (m : float) :
  np_max l = Ok m ->
  In m l /\ PrimFloat.is_nan m = existsb PrimFloat.is_nan l.
Proof.
  destruct l as [| x l]; simpl; intros H; [discriminate H |].
  injection H as <-. split.
  - apply fold_np_maximum_In.
  - apply fold_np_maximum_is_nan.
Qed.

Lemma SFleb_rank (f1 f2 : spec_float) :
  f1 <> S754_nan -> f2 <> S754_nan ->
  (SFleb f1 f2 = true <-> rank_le (SF_rank f1) (SF_rank f2)).
Proof.
  intros H1 H2.
  destruct f1 as [s1 | s1 | | s1 m1 e1]; [| | contradiction |];
  (destruct f2 as [s2 | s2 | | s2 m2 e2]; [| | contradiction |]);
  try destruct s1; try destruct s2; unfold SFleb, SFcompare, SF_rank, rank_le;
  try (split; [intros _; lia | reflexivity]);
  try (split; [intros C; discriminate C | lia]).
  - destruct (Z.compare_spec e1 e2);
      [| split; [intros C; discriminate C | lia] | split; [intros _; lia | reflexivity]].
    change (Pos.compare_cont Eq m1 m2) with (Pos.compare m1 m2).
    destruct (Pos.compare_spec m1 m2); simpl; split;
      try (intros C; discriminate C); try reflexivity; try lia.
  - destruct (Z.compare_spec e1 e2);
      [| split; [intros _; lia | reflexivity] | split; [intros C; discriminate C | lia]].
    change (Pos.compare_cont Eq m1 m2) with (Pos.compare m1 m2).
    destruct (Pos.compare_spec m1 m2); simpl; split;
      try (intros C; discriminate C); try reflexivity; try lia.
Qed.

Lemma SFltb_rank (f1 f2 : spec_float) :
  f1 <> S754_nan -> f2 <> S754_nan ->
  (SFltb f1 f2 = true <-> ~ rank_le (SF_rank f2) (SF_rank f1)).
Proof.
  intros H1 H2.
  destruct f1 as [s1 | s1 | | s1 m1 e1]; [| | contradiction |];
  (destruct f2 as [s2 | s2 | | s2 m2 e2]; [| | contradiction |]);
  try destruct s1; try destruct s2; unfold SFltb, SFcompare, SF_rank, rank_le;
  try (split; [intros _; lia | reflexivity]);
  try (split; [intros C; discriminate C | lia]).
  - destruct (Z.compare_spec e1 e2);
      [| split; [intros C; discriminate C | lia] | split; [intros _; lia | reflexivity]].
    change (Pos.compare_cont Eq m1 m2) with (Pos.compare m1 m2).
    destruct (Pos.compare_spec m1 m2); simpl; split;
      try (intros C; discriminate C); try reflexivity; try lia.
  - destruct (Z.compare_spec e1 e2);
      [| split; [intros _; lia | reflexivity] | split; [intros C; discriminate C | lia]].
    change (Pos.compare_cont Eq m1 m2) with (Pos.compare m1 m2).
    destruct (Pos.compare_spec m1 m2); simpl; split;
      try (intros C; discriminate C); try reflexivity; try lia.
Qed.

Lemma rank_le_trans (r1 r2 r3 : Z * Z * Z) :
  rank_le r1 r2 -> rank_le r2 r3 -> rank_le r1 r3.
Proof.
  destruct r1 as [[c1 e1] m1], r2 as [[c2 e2] m2], r3 as [[c3 e3] m3].
  unfold rank_le. lia.
Qed.

Lemma rank_le_total (r1 r2 : Z * Z * Z) :
  ~ rank_le r2 r1 -> rank_le r1 r2.
Proof.
  destruct r1 as [[c1 e1] m1], r2 as [[c2 e2] m2]. unfold rank_le. lia.
Qed.

Lemma rank_le_stable (r1 r2 : Z * Z * Z) :
  ~ ~ rank_le r1 r2 -> rank_le r1 r2.
Proof.
  destruct r1 as [[c1 e1] m1], r2 as [[c2 e2] m2]. unfold rank_le. lia.
Qed.

Lemma rank_le_refl (r : Z * Z * Z) : rank_le r r.
Proof. destruct r as [[c e] m]. unfold rank_le. lia. Qed.

Lemma is_nan_Prim2SF (x : float) :
  PrimFloat.is_nan x = false -> Prim2SF x <> S754_nan.
Proof.
  unfold PrimFloat.is_nan. rewrite eqb_spec. intros H E.
  rewrite E in H. discriminate H.
Qed.

Lemma leb_rank (x y : float) :
  PrimFloat.is_nan x = false -> PrimFloat.is_nan y = false ->
  (PrimFloat.leb x y = true <->
   rank_le (SF_rank (Prim2SF x)) (SF_rank (Prim2SF y))).
Proof.
  intros Hx Hy. rewrite leb_spec.
  apply SFleb_rank; apply is_nan_Prim2SF; assumption.
Qed.

(** Of two numbers, [np.maximum] is not below either. *)
Lemma np_maximum_ge (a b : float) :
  PrimFloat.is_nan a = false -> PrimFloat.is_nan b = false ->
  PrimFloat.leb a (np_maximum a b) = true /\
  PrimFloat.leb b (np_maximum a b) = true.
Proof.
  intros Ha Hb. unfold np_maximum. rewrite Ha, Hb.
  destruct (PrimFloat.ltb a b) eqn:E.
  - split; apply leb_rank; try assumption; [| apply rank_le_refl].
    apply rank_le_total.
    apply (SFltb_rank _ _ (is_nan_Prim2SF a Ha) (is_nan_Prim2SF b Hb)).
    rewrite <- ltb_spec. exact E.
  - split; apply leb_rank; try assumption; [apply rank_le_refl |].
    apply rank_le_stable. intros C.
    apply (SFltb_rank _ _ (is_nan_Prim2SF a Ha) (is_nan_Prim2SF b Hb)) in C.
    rewrite <- ltb_spec, E in C. discriminate C.
Qed.

Lemma leb_trans (x y z : float) :
  PrimFloat.is_nan x = false -> PrimFloat.is_nan y = false ->
  PrimFloat.is_nan z = false ->
  PrimFloat.leb x y = true -> PrimFloat.leb y z = true ->
  PrimFloat.leb x z = true.
Proof.
  intros Hx Hy Hz H1 H2.
  apply (leb_rank x y Hx Hy) in H1. apply (leb_rank y z Hy Hz) in H2.
  apply (leb_rank x z Hx Hz). exact (rank_le_trans _ _ _ H1 H2).
Qed.

(** With no [nan] among them, the fold of [np.maximum] is not below any of
    the numbers. *)
Lemma fold_np_maximum_ge (l : list float) :
  forall a,
    PrimFloat.is_nan a = false -> existsb PrimFloat.is_nan l = false ->
    forall x, In x (a :: l) -> PrimFloat.leb x (fold_left np_maximum l a) = true.
Proof.
  induction l as [| y l IH]; intros a Ha Hl x Hin.
  - destruct Hin as [<- | []]. simpl.
    apply leb_rank; try assumption. apply rank_le_refl.
  - simpl in Hl. apply orb_false_elim in Hl as [Hy Hl].
    assert (Hm : PrimFloat.is_nan (np_maximum a y) = false)
      by (rewrite np_maximum_is_nan, Ha, Hy; reflexivity).
    assert (Hf : PrimFloat.is_nan (fold_left np_maximum l (np_maximum a y)) = false)
      by (rewrite fold_np_maximum_is_nan, Hm, Hl; reflexivity).
    destruct (np_maximum_ge a y Ha Hy) as [Ga Gy].
    pose proof (IH (np_maximum a y) Hm Hl (np_maximum a y) (or_introl eq_refl)) as Gm.
    simpl fold_left.
    destruct Hin as [<- | [<- | Hin]].
    + apply (leb_trans a (np_maximum a y) _ Ha Hm Hf Ga Gm).
    + apply (leb_trans y (np_maximum a y) _ Hy Hm Hf Gy Gm).
    + apply (IH (np_maximum a y) Hm Hl x). right. exact Hin.
Qed.

(** [np.max] of a buffer without [nan] is its greatest reading. *)
Lemma np_max_ge (l : list float) (m : float) :
  np_max l = Ok m -> existsb PrimFloat.is_nan l = false ->
  forall x, In x l -> PrimFloat.leb x m = true.
Proof.
  destruct l as [| a l]; simpl; intros H Hn; [discriminate H |].
  injection H as <-. apply orb_false_elim in Hn as [Ha Hl].
  apply fold_np_maximum_ge; assumption.
Qed.

(** X14.  What [display_data] shows as wind direction is the maximum of the
    wind direction buffer, not a mean: it is one of the readings of the
    buffer and, when the buffer holds no [nan], no reading of the buffer is
    above it.  The wind maximum is in the same way the conversion of the
    greatest of the wind speed readings.  Each is [nan] exactly when its
    buffer holds a [nan]. *)
Theorem display_shows_buffer_readings :
  forall h c wd ws d,
    display_data h c wd ws = Ok d ->
    (In (d_wind_direction d) wd /\
     PrimFloat.is_nan (d_wind_direction d) = existsb PrimFloat.is_nan wd /\
     (existsb PrimFloat.is_nan wd = false ->
      forall x, In x wd -> PrimFloat.leb x (d_wind_direction d) = true)) /\
    exists m,
      In m ws /\ PrimFloat.is_nan m = existsb PrimFloat.is_nan ws /\
      (existsb PrimFloat.is_nan ws = false ->
       forall x, In x ws -> PrimFloat.leb x m = true) /\
      d_wind_max d = ws_correct (ms_to_mph m).
Proof.
  intros h c wd ws d H. unfold display_data in H.
  apply bind_Ok_inv in H as (m & Hm & H).
  apply bind_Ok_inv in H as (n & Hn & H).
  apply bind_Ok_inv in H as (n' & Hn' & H).
  injection H as <-. simpl in Hn'. injection Hn' as <-. simpl.
  destruct (np_max_In wd n Hn) as [Hin Hnan].
  destruct (np_max_In ws m Hm) as [Hin' Hnan'].
  split.
  - split; [exact Hin |]. split; [exact Hnan |].
    intros Hc. apply (np_max_ge wd n Hn Hc).
  - exists m. split; [exact Hin' |]. split; [exact Hnan' |].
    split; [| reflexivity].
    intros Hc. apply (np_max_ge ws m Hm Hc).
Qed.

Lemma display_shows_buffer_readings_witness :
  exists d,
    display_data [50; 52] [10] [45; 90; 60] [3; 5] = Ok d /\
    In (d_wind_direction d) [45; 90; 60] /\
    PrimFloat.is_nan (d_wind_direction d) = false /\
    PrimFloat.leb 45 (d_wind_direction d) = true /\
    PrimFloat.leb 90 (d_wind_direction d) = true /\
    PrimFloat.leb 60 (d_wind_direction d) = true.
Proof.
  assert (E : exists d, display_data [50; 52] [10] [45; 90; 60] [3; 5] = Ok d)
    by (eexists; vm_compute; reflexivity).
  destruct E as [d E]. exists d. split; [exact E |].
  destruct (display_shows_buffer_readings [50; 52] [10] [45; 90; 60] [3; 5] d E)
    as ((Hin & Hnan & Hge) & _).
  split; [exact Hin |]. split; [exact Hnan |].
  assert (Hc : existsb PrimFloat.is_nan [45; 90; 60] = false)
    by (vm_compute; reflexivity).
  split; [| split]; apply (Hge Hc); simpl; auto.
Defined.

(** ** [get_smooth] *)

Lemma get_smooth_calls_app (xs ys : list float) :
  forall t,
    get_smooth_calls t (xs ++ ys) =
    (fst (get_smooth_calls (fst (get_smooth_calls t xs)) ys),
     snd (get_smooth_calls t xs) ++ snd (get_smooth_calls (fst (get_smooth_calls t xs)) ys)).
Proof.
  induction xs as [| x xs IH]; intros t.
  - simpl. destruct (get_smooth_calls t ys). reflexivity.
  - simpl app. simpl get_smooth_calls.
    destruct (get_smooth t x) as [t1 r].
    rewrite (IH t1).
    destruct (get_smooth_calls t1 xs) as [t2 rs]. simpl.
    destruct (get_smooth_calls t2 ys) as [t3 rs']. reflexivity.
Qed.

Lemma get_smooth_three (t : option (float * float * float)) (a b c : float) :
  exists r1 r2,
    get_smooth_calls t [a; b; c] = (Some (c, b, a), [r1; r2; (c + b + a) / 3]).
Proof.
  destruct t as [[[p q] r] |]; simpl; eauto.
Qed.

(** X13.  [get_smooth] returns the mean of its last three arguments: from
    the third call on, whatever was passed before, the value returned is
    [(c + b + a) / 3] for the last three arguments [a], [b], [c], and the
    attribute holds them, newest first.  On a fresh attribute the first
    argument fills the three slots, so it counts three times in the first
    value and twice in the second. *)
Theorem get_smooth_mean_of_last_three :
  (forall t xs a b c,
     fst (get_smooth_calls t (xs ++ [a; b; c])) = Some (c, b, a) /\
     last (snd (get_smooth_calls t (xs ++ [a; b; c]))) 0 = (c + b + a) / 3 /\
     length (snd (get_smooth_calls t (xs ++ [a; b; c]))) = (length xs + 3)%nat) /\
  (forall x y,
     get_smooth_calls None [x; y] =
       (Some (y, x, x), [(x + x + x) / 3; (y + x + x) / 3])).
Proof.
  split; [| reflexivity].
  intros t xs a b c. rewrite get_smooth_calls_app.
  destruct (get_smooth_three (fst (get_smooth_calls t xs)) a b c) as (r1 & r2 & E).
  rewrite E. cbn [fst snd].
  split; [reflexivity |]. split.
  - change [r1; r2; (c + b + a) / 3] with ([r1; r2] ++ [(c + b + a) / 3]).
    rewrite app_assoc. apply last_last.
  - rewrite length_app. simpl.
    assert (L : forall ys t0, length (snd (get_smooth_calls t0 ys)) = length ys).
    { induction ys as [| y ys IHy]; intros t0; [reflexivity |].
      simpl. destruct (get_smooth t0 y) as [t1 r].
      specialize (IHy t1). destruct (get_smooth_calls t1 ys). simpl in *.
      rewrite IHy. reflexivity. }
    rewrite L. reflexivity.
Qed.
